(** * JLed: a non-blocking LED effect controller

    Shallow embedding of [src/jled.h] (class [TJLed<T>]) and verification of
    its timing state machine and brightness functions.

    Conventions of the embedding.
    - Machine integers are [Z] with the wrap-around written out ([u8], [u16],
      [u32]).  [int] is taken to be at least 32 bits wide (ESP32, ESP8266,
      ARM and host builds), so that the promoted sum [period_ + delay_after_]
      of two [uint16_t] does not wrap.
    - [millis()] is the argument [now] of [Update].
    - The output port [port_] is external; every [port_.analogWrite(v)] is
      recorded as an event [Write v], and every call of the brightness
      function through [EvalBrightness(t)] as an event [Eval t].
    - A null [brightness_func_] is [None].
    - Undefined behaviour (a modulo by zero, a call through a null function
      pointer) is the result [None] of the operation. *)

From Stdlib Require Import ZArith List Bool Lia.
Import ListNotations.
Local Open Scope Z_scope.

(** ** Fixed-width unsigned integers *)

Definition u8 (x : Z) : Z := x mod 2 ^ 8.
Definition u16 (x : Z) : Z := x mod 2 ^ 16.
Definition u32 (x : Z) : Z := x mod 2 ^ 32.

Definition is_u16 (x : Z) : Prop := 0 <= x < 2 ^ 16.
Definition is_u32 (x : Z) : Prop := 0 <= x < 2 ^ 32.

(** ** Class constants (jled.h, lines 305-313) *)

Definition kFadeOnTable : list Z := [0; 3; 13; 33; 68; 118; 179; 232; 255].
Definition kRepeatForever : Z := 65535.
Definition kTimeUndef : Z := Eval cbv in u32 (-1).
Definition FL_INVERTED : Z := Eval cbv in Z.shiftl 1 0.
Definition FL_LOW_ACTIVE : Z := Eval cbv in Z.shiftl 1 1.
Definition FL_IN_DELAY_PHASE : Z := Eval cbv in Z.shiftl 1 2.
Definition kFullBrightness : Z := 255.
Definition kZeroBrightness : Z := 0.

(** ** Brightness functions (jled.h, lines 245-296)

    [f t period param]; the result type is [uint8_t]. *)

Definition BrightnessEvalFunction : Type := Z -> Z -> Z -> Z.

Definition OnFunc : BrightnessEvalFunction := fun _ _ _ => kFullBrightness.

Definition OffFunc : BrightnessEvalFunction := fun _ _ _ => kZeroBrightness.

Definition BlinkFunc : BrightnessEvalFunction := fun t _ effect_param =>
  if t <? effect_param then kFullBrightness else kZeroBrightness.

(** [t = ((t << 8) / period) & 0xff], the position scaled to 0..255. *)
Definition fade_scale (t period : Z) : Z :=
  Z.land (u32 (Z.shiftl t 8) / period) 255.

(** [i = t >> 5], the index of the interpolation segment. *)
Definition fade_index (ts : Z) : Z := Z.shiftr ts 5.

Definition table_at (i : Z) : Z := nth (Z.to_nat i) kFadeOnTable 0.

(** Linear interpolation in segment [i] of the table, for a scaled [ts]:
    [(((t - x0) * (y1 - y0)) >> 5) + y0]. *)
Definition fade_interp (ts : Z) : Z :=
  let i := fade_index ts in
  let y0 := table_at i in
  let y1 := table_at (i + 1) in
  let x0 := u32 (Z.shiftl i 5) in
  u8 (u32 (Z.shiftr (u32 (u32 (ts - x0) * u32 (y1 - y0))) 5 + y0)).

Definition FadeOnFunc : BrightnessEvalFunction := fun t period _ =>
  if period <=? u32 (t + 1) then kFullBrightness
  else fade_interp (fade_scale t period).

Definition FadeOffFunc : BrightnessEvalFunction := fun t period _ =>
  FadeOnFunc (u32 (period - t)) period 0.

Definition BreatheFunc : BrightnessEvalFunction := fun t period _ =>
  if period <=? u32 (t + 1) then kZeroBrightness
  else
    let periodh := u16 (Z.shiftr period 1) in
    if t <? periodh then FadeOnFunc t periodh 0
    else FadeOffFunc (u32 (t - periodh)) periodh 0.

(** ** Controller state (jled.h, lines 210-211 and 314-322) *)

Record TJLed : Type := mkTJLed {
  brightness_func_ : option BrightnessEvalFunction;
  effect_param_ : Z;
  flags_ : Z;
  num_repetitions_ : Z;
  last_update_time_ : Z;
  delay_before_ : Z;
  delay_after_ : Z;
  time_start_ : Z;
  period_ : Z
}.

(** A freshly constructed controller: the member initialisers. *)
Definition TJLed_new : TJLed :=
  {| brightness_func_ := None; effect_param_ := 0; flags_ := 0;
     num_repetitions_ := 1; last_update_time_ := kTimeUndef;
     delay_before_ := 0; delay_after_ := 0; time_start_ := kTimeUndef;
     period_ := 0 |}.

Definition set_brightness_func (f : option BrightnessEvalFunction) (s : TJLed) :=
  mkTJLed f (effect_param_ s) (flags_ s) (num_repetitions_ s)
          (last_update_time_ s) (delay_before_ s) (delay_after_ s)
          (time_start_ s) (period_ s).
Definition set_effect_param (x : Z) (s : TJLed) :=
  mkTJLed (brightness_func_ s) x (flags_ s) (num_repetitions_ s)
          (last_update_time_ s) (delay_before_ s) (delay_after_ s)
          (time_start_ s) (period_ s).
Definition set_flags (x : Z) (s : TJLed) :=
  mkTJLed (brightness_func_ s) (effect_param_ s) x (num_repetitions_ s)
          (last_update_time_ s) (delay_before_ s) (delay_after_ s)
          (time_start_ s) (period_ s).
Definition set_num_repetitions (x : Z) (s : TJLed) :=
  mkTJLed (brightness_func_ s) (effect_param_ s) (flags_ s) x
          (last_update_time_ s) (delay_before_ s) (delay_after_ s)
          (time_start_ s) (period_ s).
Definition set_last_update_time (x : Z) (s : TJLed) :=
  mkTJLed (brightness_func_ s) (effect_param_ s) (flags_ s)
          (num_repetitions_ s) x (delay_before_ s) (delay_after_ s)
          (time_start_ s) (period_ s).
Definition set_delay_before (x : Z) (s : TJLed) :=
  mkTJLed (brightness_func_ s) (effect_param_ s) (flags_ s)
          (num_repetitions_ s) (last_update_time_ s) x (delay_after_ s)
          (time_start_ s) (period_ s).
Definition set_delay_after (x : Z) (s : TJLed) :=
  mkTJLed (brightness_func_ s) (effect_param_ s) (flags_ s)
          (num_repetitions_ s) (last_update_time_ s) (delay_before_ s) x
          (time_start_ s) (period_ s).
Definition set_time_start (x : Z) (s : TJLed) :=
  mkTJLed (brightness_func_ s) (effect_param_ s) (flags_ s)
          (num_repetitions_ s) (last_update_time_ s) (delay_before_ s)
          (delay_after_ s) x (period_ s).
Definition set_period (x : Z) (s : TJLed) :=
  mkTJLed (brightness_func_ s) (effect_param_ s) (flags_ s)
          (num_repetitions_ s) (last_update_time_ s) (delay_before_ s)
          (delay_after_ s) (time_start_ s) x.

(** ** Flags (jled.h, lines 227-238) *)

Definition SetFlags (f : Z) (val : bool) (s : TJLed) : TJLed :=
  if val then set_flags (u8 (Z.lor (flags_ s) f)) s
  else set_flags (u8 (Z.land (flags_ s) (Z.lnot f))) s.

Definition GetFlag (f : Z) (s : TJLed) : bool :=
  negb (Z.land (flags_ s) f =? 0).

Definition SetInDelayAfterPhase (f : bool) (s : TJLed) : TJLed :=
  SetFlags FL_IN_DELAY_PHASE f s.
Definition IsInDelayAfterPhase (s : TJLed) : bool := GetFlag FL_IN_DELAY_PHASE s.
Definition IsInverted (s : TJLed) : bool := GetFlag FL_INVERTED s.
Definition IsLowActive (s : TJLed) : bool := GetFlag FL_LOW_ACTIVE s.
Definition IsForever (s : TJLed) : bool := num_repetitions_ s =? kRepeatForever.

(** ** Output (jled.h, lines 215-218 and 240-243) *)

Inductive event : Type :=
| Eval (t : Z)      (* brightness_func_ called at time t *)
| Write (v : Z).    (* port_.analogWrite(v) *)

(** The values that reached the port, in order. *)
Fixpoint writes (tr : list event) : list Z :=
  match tr with
  | [] => []
  | Write v :: tr' => v :: writes tr'
  | Eval _ :: tr' => writes tr'
  end.

(** The times at which the brightness function was called, in order. *)
Fixpoint evals (tr : list event) : list Z :=
  match tr with
  | [] => []
  | Eval t :: tr' => t :: evals tr'
  | Write _ :: tr' => evals tr'
  end.

Definition AnalogWrite (val : Z) (s : TJLed) : list event :=
  let new_val := if IsLowActive s then kFullBrightness - val else val in
  [Write new_val].

Definition EvalBrightness (t : Z) (s : TJLed) : option Z :=
  match brightness_func_ s with
  | None => None
  | Some f =>
      let val := u8 (f t (period_ s) (effect_param_ s)) in
      Some (u8 (if IsInverted s then kFullBrightness - val else val))
  end.

(** [AnalogWrite(EvalBrightness(t))], with its trace. *)
Definition EvalAndWrite (t : Z) (s : TJLed) : option (list event) :=
  match EvalBrightness t s with
  | None => None
  | Some v => Some (Eval t :: AnalogWrite v s)
  end.

(** ** Update (jled.h, lines 63-119) *)

(** [time_start_ + (uint32_t)(period_ + delay_after_) * num_repetitions_] *)
Definition time_end (s : TJLed) : Z :=
  u32 (time_start_ s
       + u32 (u32 (period_ s + delay_after_ s) * num_repetitions_ s)).

(** Lines 104-118: the position in the current repetition and its output. *)
Definition Update_cycle (now : Z) (s : TJLed) : option (bool * list event * TJLed) :=
  if period_ s + delay_after_ s =? 0 then None
  else
    let t := u32 (now - time_start_ s) mod (period_ s + delay_after_ s) in
    if t <? period_ s then
      let s := SetInDelayAfterPhase false s in
      match EvalAndWrite t s with
      | None => None
      | Some tr => Some (true, tr, s)
      end
    else if negb (IsInDelayAfterPhase s) then
      let s := SetInDelayAfterPhase true s in
      match EvalAndWrite (u32 (period_ s - 1)) s with
      | None => None
      | Some tr => Some (true, tr, s)
      end
    else Some (true, [], s).

(** Lines 91-118: the end of the effect, or one more step of it. *)
Definition Update_run (now : Z) (s : TJLed) : option (bool * list event * TJLed) :=
  if negb (IsForever s) && (time_end s <=? now) then
    match EvalAndWrite (u32 (period_ s - 1)) s with
    | None => None
    | Some tr => Some (false, tr, set_brightness_func None s)
    end
  else Update_cycle now s.

Definition Update (now : Z) (s : TJLed) : option (bool * list event * TJLed) :=
  match brightness_func_ s with
  | None => Some (false, [], s)
  | Some _ =>
      if last_update_time_ s =? now then Some (true, [], s)
      else
        let s :=
          if last_update_time_ s =? kTimeUndef
          then set_time_start (u32 (now + delay_before_ s))
                              (set_last_update_time now s)
          else s in
        let delta_time := u32 (now - last_update_time_ s) in
        let s := set_last_update_time now s in
        if 0 <? delay_before_ s then
          let s :=
            set_delay_before
              (u16 (Z.max 0 (delay_before_ s - delta_time))) s in
          if 0 <? delay_before_ s then Some (true, [], s)
          else Update_run now s
        else Update_run now s
  end.

(** ** Effect selection and modifiers (jled.h, lines 121-207 and 220-225) *)

Definition Init (func : BrightnessEvalFunction) (s : TJLed) : TJLed :=
  set_time_start kTimeUndef
    (set_last_update_time kTimeUndef (set_brightness_func (Some func) s)).

Definition On (s : TJLed) : TJLed := Init OnFunc (set_period 1 s).
Definition Off (s : TJLed) : TJLed := Init OffFunc (set_period 1 s).
Definition Set_ (on : bool) (s : TJLed) : TJLed := if on then On s else Off s.
Definition FadeOn (duration : Z) (s : TJLed) : TJLed :=
  Init FadeOnFunc (set_period duration s).
Definition FadeOff (duration : Z) (s : TJLed) : TJLed :=
  Init FadeOffFunc (set_period duration s).
Definition Breathe (period : Z) (s : TJLed) : TJLed :=
  Init BreatheFunc (set_period period s).
Definition Blink (duration_on duration_off : Z) (s : TJLed) : TJLed :=
  Init BlinkFunc
    (set_effect_param duration_on
       (set_period (u16 (duration_on + duration_off)) s)).
Definition UserFunc (func : BrightnessEvalFunction) (period user_param : Z)
    (s : TJLed) : TJLed :=
  Init func (set_period period (set_effect_param user_param s)).

Definition Repeat (num_repetitions : Z) (s : TJLed) : TJLed :=
  set_num_repetitions num_repetitions s.
Definition Forever (s : TJLed) : TJLed := Repeat kRepeatForever s.
Definition DelayBefore (delay_before : Z) (s : TJLed) : TJLed :=
  set_delay_before delay_before s.
Definition DelayAfter (delay_after : Z) (s : TJLed) : TJLed :=
  set_delay_after delay_after s.
Definition Invert (s : TJLed) : TJLed := SetFlags FL_INVERTED true s.
Definition LowActive (s : TJLed) : TJLed := SetFlags FL_LOW_ACTIVE true s.

Definition Stop (s : TJLed) : list event * TJLed :=
  let s := set_brightness_func None s in
  (AnalogWrite 0 s, s).

(** ** Sequences of [Update] calls *)

(** Calls [Update] at each time of [ts] in turn and collects each call's
    return value and trace. *)
Fixpoint run (ts : list Z) (s : TJLed)
  : option (list (bool * list event) * TJLed) :=
  match ts with
  | [] => Some ([], s)
  | now :: ts' =>
      match Update now s with
      | None => None
      | Some (r, tr, s1) =>
          match run ts' s1 with
          | None => None
          | Some (outs, s2) => Some ((r, tr) :: outs, s2)
          end
      end
  end.

(** Non-decreasing call times. *)
Fixpoint nondecreasing (ts : list Z) : Prop :=
  match ts with
  | [] => True
  | t :: ts' =>
      match ts' with
      | [] => True
      | t' :: _ => t <= t' /\ nondecreasing ts'
      end
  end.

(** What a caller observes of a sequence of calls: each call's return value
    and the values it wrote to the port. *)
Definition observe (r : option (list (bool * list event) * TJLed))
  : option (list (bool * list Z)) :=
  match r with
  | None => None
  | Some (outs, _) => Some (map (fun o => (fst o, writes (snd o))) outs)
  end.

(** The same call pattern, [d] milliseconds later on the 32-bit clock. *)
Definition shift_times (d : Z) (ts : list Z) : list Z :=
  map (fun t => u32 (t + d)) ts.

(** A bounded universal quantifier that computes. *)
Fixpoint all_below (n : nat) (P : Z -> bool) : bool :=
  match n with
  | O => true
  | S k => P (Z.of_nat k) && all_below k P
  end.

(** The time [delta_time] that [Update] subtracts from [delay_before_]: 0 on
    the first call after [Init], else the time since the last call. *)
Definition elapsed (now : Z) (s : TJLed) : Z :=
  if last_update_time_ s =? kTimeUndef then u32 (now - now)
  else u32 (now - last_update_time_ s).

(** What a defined [Update] call can be: a call on an idle controller, a
    duplicate call within one tick, a call that leaves the effect running
    with [last_update_time_ = now], or the call that ends the effect. *)
Inductive Update_case (now : Z) (s : TJLed)
  : bool -> list event -> TJLed -> Prop :=
| UC_idle :
    brightness_func_ s = None -> Update_case now s false [] s
| UC_duplicate :
    brightness_func_ s <> None -> last_update_time_ s = now ->
    Update_case now s true [] s
| UC_running tr s' :
    brightness_func_ s <> None -> last_update_time_ s <> now ->
    brightness_func_ s' = brightness_func_ s ->
    last_update_time_ s' = now ->
    num_repetitions_ s' = num_repetitions_ s ->
    period_ s' = period_ s -> delay_after_ s' = delay_after_ s ->
    Update_case now s true tr s'
| UC_finished tr s' :
    brightness_func_ s <> None -> last_update_time_ s <> now ->
    brightness_func_ s' = None ->
    IsForever s = false ->
    Update_case now s false tr s'.

(** ** Lifetime of an effect

    An effect with brightness function [f], period [p], [n] repetitions and
    delays [db] and [da], first updated at time [t0]. *)

(** The time at which the effect is over. *)
Definition lifetime_end (p n db da t0 : Z) : Z := t0 + db + n * (p + da).

(** The state selected and configured, before the first [Update]. *)
Definition Fresh (f : BrightnessEvalFunction) (p n db da : Z) (s : TJLed)
  : Prop :=
  brightness_func_ s = Some f
  /\ last_update_time_ s = kTimeUndef
  /\ delay_before_ s = db
  /\ delay_after_ s = da /\ period_ s = p /\ num_repetitions_ s = n.

(** The state of the running effect after a call at time [tl]. *)
Definition Running (f : BrightnessEvalFunction) (p n db da t0 tl : Z)
    (s : TJLed) : Prop :=
  t0 <= tl < lifetime_end p n db da t0
  /\ brightness_func_ s = Some f
  /\ last_update_time_ s = tl
  /\ time_start_ s = t0 + db
  /\ delay_before_ s = Z.max 0 (db - (tl - t0))
  /\ delay_after_ s = da /\ period_ s = p /\ num_repetitions_ s = n.

(** ** Auxiliary definitions for the properties of [Update] *)

(** Lines 76-89 of [Update]: the bookkeeping of a call that is neither on
    an idle controller nor a duplicate; the first-call initialisation, the
    new [last_update_time_] and the decrement of [delay_before_]. *)
Definition Update_pre (now : Z) (s : TJLed) : TJLed :=
  let s :=
    if last_update_time_ s =? kTimeUndef
    then set_time_start (u32 (now + delay_before_ s))
                        (set_last_update_time now s)
    else s in
  let delta_time := u32 (now - last_update_time_ s) in
  let s := set_last_update_time now s in
  if 0 <? delay_before_ s
  then set_delay_before (u16 (Z.max 0 (delay_before_ s - delta_time))) s
  else s.

(** The position in the current repetition, [t] of line 105. *)
Definition phase (now : Z) (s : TJLed) : Z :=
  u32 (now - time_start_ s) mod (period_ s + delay_after_ s).

(** The value that reaches the port for a raw brightness [raw]: the
    inversion of [EvalBrightness], then the polarity of [AnalogWrite]. *)
Definition port_value (s : TJLed) (raw : Z) : Z :=
  let val := u8 raw in
  let b := u8 (if IsInverted s then kFullBrightness - val else val) in
  if IsLowActive s then kFullBrightness - b else b.

(** Every field holds a value of its C++ type. *)
Definition well_typed (s : TJLed) : Prop :=
  0 <= flags_ s < 2 ^ 8
  /\ is_u16 (num_repetitions_ s)
  /\ is_u32 (last_update_time_ s)
  /\ is_u16 (delay_before_ s)
  /\ is_u16 (delay_after_ s)
  /\ is_u32 (time_start_ s)
  /\ is_u16 (period_ s).

(** The configuration of an effect: what the selectors and modifiers set
    and [Update] only reads. *)
Definition same_config (s s' : TJLed) : Prop :=
  effect_param_ s' = effect_param_ s
  /\ num_repetitions_ s' = num_repetitions_ s
  /\ delay_after_ s' = delay_after_ s
  /\ period_ s' = period_ s
  /\ IsInverted s' = IsInverted s
  /\ IsLowActive s' = IsLowActive s.

(** The state [s] as it would be had every call come [d] milliseconds
    later on the 32-bit clock. *)
Definition shift_state (d : Z) (s : TJLed) : TJLed :=
  set_time_start (u32 (time_start_ s + d))
    (set_last_update_time (u32 (last_update_time_ s + d)) s).

Definition shift_result (d : Z) (o : option (bool * list event * TJLed))
  : option (bool * list event * TJLed) :=
  match o with
  | Some (r, tr, s') => Some (r, tr, shift_state d s')
  | None => None
  end.

(** A call time away from the sentinel [kTimeUndef], before and after a
    shift by [d]. *)
Definition clear_of_sentinel (d t : Z) : Prop :=
  is_u32 t /\ t <> kTimeUndef /\ u32 (t + d) <> kTimeUndef.

(** How the states of a call pattern and of its shifted copy correspond:
    before the first call they are the same fresh state, afterwards one is
    the other moved by [d]. *)
Definition shifted (d : Z) (s1 s2 : TJLed) : Prop :=
  (s2 = shift_state d s1
   /\ is_u32 (last_update_time_ s1)
   /\ last_update_time_ s1 <> kTimeUndef
   /\ u32 (last_update_time_ s1 + d) <> kTimeUndef)
  \/ (s2 = s1 /\ last_update_time_ s1 = kTimeUndef).

(** The effect is waiting out its delay before: last updated at [tl],
    with [t0 + db - tl] milliseconds of the delay left. *)
Definition Waiting (f : BrightnessEvalFunction) (db t0 tl : Z) (s : TJLed)
  : Prop :=
  brightness_func_ s = Some f
  /\ last_update_time_ s = tl
  /\ time_start_ s = t0 + db
  /\ delay_before_ s = t0 + db - tl
  /\ t0 <= tl < t0 + db.

(** * Properties *)

Ltac fields :=
  cbn [brightness_func_ effect_param_ flags_ num_repetitions_
       last_update_time_ delay_before_ delay_after_ time_start_ period_
       set_brightness_func set_effect_param set_flags set_num_repetitions
       set_last_update_time set_delay_before set_delay_after set_time_start
       set_period] in *.

(** ** Machine integers *)

Lemma u32_small (x : Z) : 0 <= x < 2 ^ 32 -> u32 x = x.
Proof. intros H. unfold u32. apply Z.mod_small. exact H. Qed.

Lemma u16_small (x : Z) : 0 <= x < 2 ^ 16 -> u16 x = x.
Proof. intros H. unfold u16. apply Z.mod_small. exact H. Qed.

Lemma u8_small (x : Z) : 0 <= x < 2 ^ 8 -> u8 x = x.
Proof. intros H. unfold u8. apply Z.mod_small. exact H. Qed.

Lemma u8_range (x : Z) : 0 <= u8 x <= 255.
Proof.
  unfold u8. pose proof (Z.mod_pos_bound x 256 eq_refl) as H.
  change (2 ^ 8) with 256. lia.
Qed.

Lemma all_below_spec (P : Z -> bool) (n : nat) :
  all_below n P = true ->
  forall x, 0 <= x < Z.of_nat n -> P x = true.
Proof.
  induction n as [|k IH]; simpl; intros H x Hx.
  - lia.
  - apply andb_true_iff in H. destruct H as [Hk Hrest].
    destruct (Z.eq_dec x (Z.of_nat k)) as [->|Hne].
    + exact Hk.
    + apply IH; [exact Hrest | lia].
Qed.

(** ** The fade-on curve *)

Lemma land_255 (a : Z) : Z.land a 255 = a mod 256.
Proof. change 255 with (Z.ones 8). rewrite Z.land_ones by lia. reflexivity. Qed.

Lemma fade_scale_range (t period : Z) : 0 <= fade_scale t period <= 255.
Proof.
  unfold fade_scale. rewrite land_255.
  pose proof (Z.mod_pos_bound (u32 (Z.shiftl t 8) / period) 256 eq_refl) as H.
  lia.
Qed.

(** Below the terminal tick the scaled position is the exact quotient
    [256 * t / period]: neither the shift nor the mask loses anything. *)
Lemma fade_scale_exact (t period : Z) :
  0 <= t -> t + 1 < period -> period <= 65535 ->
  fade_scale t period = (t * 256) / period.
Proof.
  intros Ht Hlt Hp. unfold fade_scale.
  rewrite Z.shiftl_mul_pow2 by lia. change (2 ^ 8) with 256.
  rewrite u32_small by (change (2 ^ 32) with 4294967296; lia).
  rewrite land_255. apply Z.mod_small. split.
  - apply Z.div_pos; lia.
  - apply Z.div_lt_upper_bound; lia.
Qed.

Lemma fade_scale_mono (t1 t2 period : Z) :
  0 <= t1 -> t1 <= t2 -> t2 + 1 < period -> period <= 65535 ->
  fade_scale t1 period <= fade_scale t2 period.
Proof.
  intros H0 H12 H2 Hp.
  rewrite !fade_scale_exact by lia.
  apply Z.div_le_mono; lia.
Qed.

Lemma fade_index_in_table (ts : Z) :
  0 <= ts <= 255 ->
  0 <= fade_index ts /\ fade_index ts + 1 < Z.of_nat (length kFadeOnTable).
Proof.
  intros H. unfold fade_index. rewrite Z.shiftr_div_pow2 by lia.
  change (2 ^ 5) with 32. simpl length.
  split.
  - apply Z.div_pos; lia.
  - assert (ts / 32 < 8) by (apply Z.div_lt_upper_bound; lia). lia.
Qed.

Lemma fade_interp_step (x : Z) :
  0 <= x < 255 -> fade_interp x <= fade_interp (x + 1).
Proof.
  intros Hx.
  assert (Hall : all_below 255 (fun x => fade_interp x <=? fade_interp (x + 1))
                 = true) by (vm_compute; reflexivity).
  apply Z.leb_le.
  apply (all_below_spec _ 255 Hall). exact Hx.
Qed.

Lemma fade_interp_mono (x y : Z) :
  0 <= x -> x <= y -> y <= 255 -> fade_interp x <= fade_interp y.
Proof.
  intros H0 Hxy Hy.
  replace y with (x + Z.of_nat (Z.to_nat (y - x))) in * by lia.
  induction (Z.to_nat (y - x)) as [|k IH].
  - rewrite Z.add_0_r. lia.
  - rewrite Nat2Z.inj_succ in *.
    transitivity (fade_interp (x + Z.of_nat k)).
    + apply IH; lia.
    + replace (x + Z.succ (Z.of_nat k)) with (x + Z.of_nat k + 1) by lia.
      apply fade_interp_step. lia.
Qed.

(** The interpolation never leaves the byte range before its conversion to
    [uint8_t]: it stays at or below the upper sample of its segment. *)
Lemma fade_interp_no_truncation (x : Z) :
  0 <= x <= 255 ->
  let i := fade_index x in
  fade_interp x
  = Z.shiftr ((x - Z.shiftl i 5) * (table_at (i + 1) - table_at i)) 5
    + table_at i.
Proof.
  intros Hx.
  assert (Hall : all_below 256 (fun x =>
            let i := fade_index x in
            fade_interp x
            =? Z.shiftr ((x - Z.shiftl i 5) * (table_at (i + 1) - table_at i)) 5
               + table_at i) = true) by (vm_compute; reflexivity).
  apply Z.eqb_eq.
  apply (all_below_spec _ 256 Hall). simpl Z.of_nat. lia.
Qed.

Lemma FadeOnFunc_range (t period param : Z) :
  0 <= FadeOnFunc t period param <= 255.
Proof.
  unfold FadeOnFunc. destruct (period <=? u32 (t + 1)).
  - unfold kFullBrightness. lia.
  - unfold fade_interp. apply u8_range.
Qed.

Lemma FadeOnFunc_last (t period param : Z) :
  period <= u32 (t + 1) -> FadeOnFunc t period param = 255.
Proof.
  intros H. unfold FadeOnFunc.
  apply Z.leb_le in H. rewrite H. reflexivity.
Qed.

Lemma FadeOnFunc_inner (t period param : Z) :
  0 <= t -> t + 1 < period -> period <= 65535 ->
  FadeOnFunc t period param = fade_interp ((t * 256) / period).
Proof.
  intros Ht Hlt Hp. unfold FadeOnFunc.
  rewrite u32_small by (change (2 ^ 32) with 4294967296; lia).
  assert (Hf : (period <=? t + 1) = false) by (apply Z.leb_gt; lia).
  rewrite Hf. rewrite fade_scale_exact by lia. reflexivity.
Qed.

(** C10: the fade-on function is non-decreasing in time over one period,
    its table index [i] (with [i + 1]) lies inside the 9-entry table, and
    its result is a value in 0..255. *)
Theorem FadeOnFunc_monotone (period param t1 t2 : Z) :
  1 <= period <= 65535 ->
  0 <= t1 -> t1 <= t2 -> t2 < period ->
  FadeOnFunc t1 period param <= FadeOnFunc t2 period param
  /\ (0 <= FadeOnFunc t1 period param <= 255)
  /\ (0 <= FadeOnFunc t2 period param <= 255)
  /\ (0 <= fade_index (fade_scale t1 period)
      /\ fade_index (fade_scale t1 period) + 1
         < Z.of_nat (length kFadeOnTable))
  /\ (0 <= fade_index (fade_scale t2 period)
      /\ fade_index (fade_scale t2 period) + 1
         < Z.of_nat (length kFadeOnTable)).
Proof.
  intros Hp H1 H12 H2.
  split; [| split; [apply FadeOnFunc_range | split; [apply FadeOnFunc_range |
    split; apply fade_index_in_table, fade_scale_range]]].
  destruct (Z_lt_le_dec (t2 + 1) period) as [Hin | Hlast].
  - rewrite !FadeOnFunc_inner by lia.
    apply fade_interp_mono.
    + apply Z.div_pos; lia.
    + apply Z.div_le_mono; lia.
    + assert ((t2 * 256) / period < 256)
        by (apply Z.div_lt_upper_bound; lia).
      lia.
  - rewrite (FadeOnFunc_last t2).
    + apply FadeOnFunc_range.
    + rewrite u32_small by (change (2 ^ 32) with 4294967296; lia). exact Hlast.
Qed.

Lemma FadeOnFunc_monotone_witness :
  FadeOnFunc 3 10 0 <= FadeOnFunc 7 10 0
  /\ FadeOnFunc 3 10 0 = 20 /\ FadeOnFunc 7 10 0 = 154.
Proof.
  split.
  - apply (FadeOnFunc_monotone 10 0 3 7); lia.
  - split; reflexivity.
Defined.

(** The fade-on function ends on full brightness for every duration. *)
Lemma FadeOnFunc_terminal (d param : Z) :
  1 <= d <= 65535 -> FadeOnFunc (d - 1) d param = 255.
Proof.
  intros Hd. apply FadeOnFunc_last.
  rewrite u32_small by (change (2 ^ 32) with 4294967296; lia). lia.
Qed.

(** [FadeOffFunc] evaluates the fade-on curve at [period - t], one tick later
    than the mirror image [period - 1 - t]; at its terminal tick it
    therefore reads the curve at 1 instead of 0.  From a duration of 24 ms
    on, the curve is still 0 there. *)
Lemma FadeOffFunc_terminal_long (d param : Z) :
  24 <= d <= 65535 -> FadeOffFunc (d - 1) d param = 0.
Proof.
  intros Hd. unfold FadeOffFunc.
  replace (d - (d - 1)) with 1 by lia.
  rewrite u32_small by (change (2 ^ 32) with 4294967296; lia).
  rewrite FadeOnFunc_inner by lia.
  assert (Hq : 0 <= 1 * 256 / d < 11).
  { split; [apply Z.div_pos; lia | apply Z.div_lt_upper_bound; lia]. }
  assert (Hall : all_below 11 (fun x => fade_interp x =? 0) = true)
    by (vm_compute; reflexivity).
  apply Z.eqb_eq. apply (all_below_spec _ 11 Hall). simpl Z.of_nat. lia.
Qed.

(** C8: at the terminal tick [t = d - 1] the fade-on function returns 255
    for every duration, but the fade-off function does not return 0 for
    short durations: it returns 255 for [d = 1] and [d = 2], and 26 for
    [d = 3]. *)
Theorem FadeOffFunc_terminal_short :
  FadeOnFunc (1 - 1) 1 0 = 255
  /\ FadeOffFunc (1 - 1) 1 0 = 255
  /\ FadeOffFunc (2 - 1) 2 0 = 255
  /\ FadeOffFunc (3 - 1) 3 0 = 26
  /\ FadeOffFunc (23 - 1) 23 0 = 1.
Proof. repeat split; vm_compute; reflexivity. Qed.

(** ** Stop *)

(** C3 (as the code has it): [Stop] clears the brightness function and
    passes 0 to [AnalogWrite]; it skips the inversion of [EvalBrightness]
    but not the polarity of [AnalogWrite].  The port receives 0 for a
    high-active LED and 255 for a low-active one. *)
Theorem Stop_writes_off (s : TJLed) :
  Stop s = ([Write (if IsLowActive s then 255 else 0)],
            set_brightness_func None s)
  /\ brightness_func_ (snd (Stop s)) = None.
Proof.
  unfold Stop, AnalogWrite, IsLowActive, GetFlag, kFullBrightness. simpl.
  destruct (Z.land (flags_ s) FL_LOW_ACTIVE =? 0); split; reflexivity.
Qed.

(** C3, as stated, fails on a low-active LED: the port receives 255. *)
Lemma Stop_low_active_not_zero :
  IsLowActive (LowActive (On TJLed_new)) = true
  /\ writes (fst (Stop (LowActive (On TJLed_new)))) = [255]
  /\ writes (fst (Stop (LowActive (On TJLed_new)))) <> [0].
Proof.
  split; [reflexivity | split; [reflexivity | ]].
  vm_compute. discriminate.
Qed.

(** ** The Blink(500, 500) scenario *)

(** C7 (as the code has it): [Blink(500, 500)] has period 1000 and
    on-time 500.  The calls at 0 and 250 write 255; the call at 500
    evaluates the active phase at [t = 500] and writes 0; the call at 1000
    reaches [time_end = 1000], evaluates at [t = period - 1 = 999], writes 0
    and returns false; the call at 1001 finds the controller idle. *)
Theorem Blink_500_500_scenario :
  period_ (Blink 500 500 TJLed_new) = 1000
  /\ exists s',
      run [0; 250; 500; 1000; 1001] (Blink 500 500 TJLed_new)
      = Some ([(true, [Eval 0; Write 255]);
               (true, [Eval 250; Write 255]);
               (true, [Eval 500; Write 0]);
               (false, [Eval 999; Write 0]);
               (false, [])], s')
      /\ brightness_func_ s' = None.
Proof.
  split; [reflexivity |].
  eexists. split; [vm_compute; reflexivity | reflexivity].
Qed.

(** C7, as stated, fails at the call at 1000: it writes 0, not 255. *)
Lemma Blink_500_500_final_write_not_255 :
  observe (run [0; 250; 500; 1000; 1001] (Blink 500 500 TJLed_new))
  <> Some [(true, [255]); (true, [255]); (true, [0]);
           (false, [255]); (false, [])].
Proof. vm_compute. discriminate. Qed.

(** ** Clock wrap-around *)

(** C4: two call patterns that cross the wrap of the 32-bit clock do not
    behave like their shifted copies at small times.
    (1) A first call at [now = 2^32 - 1 = kTimeUndef] is taken for a
    duplicate call and does nothing.
    (2) For [Blink(500, 500)] first called at [2^32 - 100], [time_end] wraps
    to 900 and the comparison [now >= time_end] ends the effect at once. *)
Theorem Update_wraparound_diverges :
  (observe (run [4294967295; 0] (On TJLed_new))
     = Some [(true, []); (true, [255])]
   /\ shift_times 1 [4294967295; 0] = [0; 1]
   /\ observe (run (shift_times 1 [4294967295; 0]) (On TJLed_new))
     = Some [(true, [255]); (false, [255])])
  /\
  (time_end (set_time_start 4294967196 (Blink 500 500 TJLed_new)) = 900
   /\ observe (run [4294967196] (Blink 500 500 TJLed_new))
     = Some [(false, [0])]
   /\ shift_times 100 [4294967196] = [0]
   /\ observe (run (shift_times 100 [4294967196]) (Blink 500 500 TJLed_new))
     = Some [(true, [255])]).
Proof. repeat split; vm_compute; reflexivity. Qed.

(** ** Modulo by zero *)

(** [Update_cycle] divides by [period_ + delay_after_]. *)
Lemma Update_cycle_undefined (now : Z) (s : TJLed) :
  period_ s + delay_after_ s = 0 -> Update_cycle now s = None.
Proof.
  intros H. unfold Update_cycle. rewrite H. reflexivity.
Qed.

(** C5: with [period = 0], [delay_after = 0] and [Forever()], the first
    [Update] reaches the modulo with a zero divisor, for [Blink(0, 0)] as
    for a user function of period 0. *)
Theorem Update_modulo_by_zero :
  period_ (Forever (Blink 0 0 TJLed_new))
    + delay_after_ (Forever (Blink 0 0 TJLed_new)) = 0
  /\ Update 0 (Forever (Blink 0 0 TJLed_new)) = None
  /\ forall f, Update 0 (Forever (UserFunc f 0 0 TJLed_new)) = None.
Proof. repeat split. Qed.

(** ** Structure of one [Update] call *)

Lemma SetFlags_is_set_flags (f : Z) (v : bool) (s : TJLed) :
  exists fl, SetFlags f v s = set_flags fl s.
Proof. unfold SetFlags. destruct v; eexists; reflexivity. Qed.

Lemma EvalAndWrite_defined (t : Z) (s : TJLed) (f : BrightnessEvalFunction) :
  brightness_func_ s = Some f ->
  exists v, EvalAndWrite t s = Some [Eval t; Write v].
Proof.
  intros Hf. unfold EvalAndWrite, EvalBrightness, AnalogWrite.
  rewrite Hf. eexists. reflexivity.
Qed.

(** [Update_cycle] returns true and changes nothing but the flags. *)
Lemma Update_cycle_inv (now : Z) (s s' : TJLed) (r : bool) (tr : list event) :
  Update_cycle now s = Some (r, tr, s') ->
  r = true /\ exists fl, s' = set_flags fl s.
Proof.
  unfold Update_cycle, SetInDelayAfterPhase.
  destruct (period_ s + delay_after_ s =? 0); [discriminate |].
  destruct (_ <? period_ s).
  - destruct (SetFlags_is_set_flags FL_IN_DELAY_PHASE false s) as [fl ->].
    destruct (EvalAndWrite _ _); [| discriminate].
    intros H; injection H as <- _ <-. eauto.
  - destruct (negb (IsInDelayAfterPhase s)).
    + destruct (SetFlags_is_set_flags FL_IN_DELAY_PHASE true s) as [fl ->].
      destruct (EvalAndWrite _ _); [| discriminate].
      intros H; injection H as <- _ <-. eauto.
    + intros H; injection H as <- _ <-. split; [reflexivity |].
      exists (flags_ s). destruct s; reflexivity.
Qed.

Lemma Update_cycle_defined (now : Z) (s : TJLed) (f : BrightnessEvalFunction) :
  brightness_func_ s = Some f ->
  period_ s + delay_after_ s <> 0 ->
  exists tr fl, Update_cycle now s = Some (true, tr, set_flags fl s).
Proof.
  intros Hf Hm. unfold Update_cycle, SetInDelayAfterPhase.
  apply Z.eqb_neq in Hm. rewrite Hm.
  destruct (_ <? period_ s).
  - destruct (SetFlags_is_set_flags FL_IN_DELAY_PHASE false s) as [fl ->].
    destruct (EvalAndWrite_defined
                (u32 (now - time_start_ s) mod (period_ s + delay_after_ s))
                (set_flags fl s) f Hf) as [v ->].
    eauto.
  - destruct (negb (IsInDelayAfterPhase s)).
    + destruct (SetFlags_is_set_flags FL_IN_DELAY_PHASE true s) as [fl ->].
      destruct (EvalAndWrite_defined (u32 (period_ (set_flags fl s) - 1))
                  (set_flags fl s) f Hf) as [v ->].
      eauto.
    + exists [], (flags_ s). destruct s; reflexivity.
Qed.

(** [Update_run] either ends the effect or is one step of the cycle. *)
Lemma Update_run_inv (now : Z) (s s' : TJLed) (r : bool) (tr : list event) :
  Update_run now s = Some (r, tr, s') ->
  (r = false /\ s' = set_brightness_func None s
   /\ IsForever s = false /\ time_end s <= now)
  \/ (r = true /\ exists fl, s' = set_flags fl s).
Proof.
  unfold Update_run.
  destruct (IsForever s) eqn:Hfe; cbn [negb andb].
  - intros H. right. eapply Update_cycle_inv; eassumption.
  - destruct (Z.leb_spec (time_end s) now) as [Hle | Hgt].
    + destruct (EvalAndWrite _ _); [| discriminate].
      intros H; injection H as <- _ <-. left. auto.
    + intros H. right. eapply Update_cycle_inv; eassumption.
Qed.

Lemma Update_cases (now : Z) (s s' : TJLed) (r : bool) (tr : list event) :
  Update now s = Some (r, tr, s') -> Update_case now s r tr s'.
Proof.
  unfold Update.
  destruct (brightness_func_ s) as [f|] eqn:Hf.
  2:{ intros H; injection H as <- <- <-. apply UC_idle. exact Hf. }
  assert (Hact : brightness_func_ s <> None) by congruence.
  destruct (Z.eqb_spec (last_update_time_ s) now) as [Heq | Hne].
  { intros H; injection H as <- <- <-. apply UC_duplicate; assumption. }
  set (s1 := if last_update_time_ s =? kTimeUndef then _ else s).
  assert (H1 : brightness_func_ s1 = brightness_func_ s
               /\ num_repetitions_ s1 = num_repetitions_ s
               /\ period_ s1 = period_ s /\ delay_after_ s1 = delay_after_ s).
  { subst s1. destruct (last_update_time_ s =? kTimeUndef); fields; auto. }
  destruct H1 as (Hb1 & Hn1 & Hp1 & Ha1).
  set (s2 := set_last_update_time now s1).
  assert (Hrun : forall s3 : TJLed,
             brightness_func_ s3 = brightness_func_ s ->
             last_update_time_ s3 = now ->
             num_repetitions_ s3 = num_repetitions_ s ->
             period_ s3 = period_ s -> delay_after_ s3 = delay_after_ s ->
             Update_run now s3 = Some (r, tr, s') ->
             Update_case now s r tr s').
  { intros s3 Hb3 Hl3 Hn3 Hp3 Ha3 H.
    apply Update_run_inv in H.
    destruct H as [(-> & -> & Hfe & _) | (-> & fl & ->)].
    - apply UC_finished; auto.
      unfold IsForever in *. rewrite <- Hn3. exact Hfe.
    - apply UC_running; fields; auto. }
  destruct (0 <? delay_before_ s2).
  - set (s3 := set_delay_before _ s2).
    destruct (0 <? delay_before_ s3).
    + intros H; injection H as <- <- <-.
      apply UC_running; subst s3 s2; fields; auto.
    + apply Hrun; subst s3 s2; fields; auto.
  - apply Hrun; subst s2; fields; auto.
Qed.

(** C2: a second [Update] call with the same [now] returns the same
    boolean, writes nothing to the port (its trace is empty) and leaves the
    state as the first call left it. *)
Theorem Update_same_tick_idempotent
    (now : Z) (s s' : TJLed) (r : bool) (tr : list event) :
  Update now s = Some (r, tr, s') ->
  Update now s' = Some (r, [], s').
Proof.
  intros H. apply Update_cases in H.
  destruct H as [Hidle | Hact Hlast | tr s' Hact Hne Hb Hl _ _ _
                 | tr s' Hact Hne Hb _]; unfold Update.
  - rewrite Hidle. reflexivity.
  - destruct (brightness_func_ s); [| congruence].
    rewrite Hlast, Z.eqb_refl. reflexivity.
  - rewrite Hb. destruct (brightness_func_ s); [| congruence].
    rewrite Hl, Z.eqb_refl. reflexivity.
  - rewrite Hb. reflexivity.
Qed.

Lemma Update_same_tick_idempotent_witness :
  Update 250 (Blink 500 500 TJLed_new)
  = Some (true, [Eval 0; Write 255],
          set_time_start 250
            (set_last_update_time 250 (Blink 500 500 TJLed_new)))
  /\ Update 250 (set_time_start 250
                   (set_last_update_time 250 (Blink 500 500 TJLed_new)))
     = Some (true, [],
             set_time_start 250
               (set_last_update_time 250 (Blink 500 500 TJLed_new))).
Proof.
  assert (H : Update 250 (Blink 500 500 TJLed_new)
              = Some (true, [Eval 0; Write 255],
                      set_time_start 250
                        (set_last_update_time 250 (Blink 500 500 TJLed_new))))
    by (vm_compute; reflexivity).
  split; [exact H |].
  exact (Update_same_tick_idempotent 250 _ _ true _ H).
Defined.

(** ** The delay before the effect *)

Lemma u32_nonneg (x : Z) : 0 <= u32 x.
Proof.
  unfold u32. pose proof (Z.mod_pos_bound x (2 ^ 32) eq_refl). lia.
Qed.

(** C9: while an effect is set, a call that leaves [delay_before_] positive
    after subtracting the elapsed time calls no brightness function, writes
    nothing and returns true. *)
Theorem Update_waits_during_delay_before
    (now : Z) (s : TJLed) (f : BrightnessEvalFunction) :
  brightness_func_ s = Some f ->
  is_u16 (delay_before_ s) ->
  0 < Z.max 0 (delay_before_ s - elapsed now s) ->
  exists s',
    Update now s = Some (true, [], s')
    /\ brightness_func_ s' = Some f
    /\ (last_update_time_ s <> now ->
        delay_before_ s' = delay_before_ s - elapsed now s).
Proof.
  intros Hf Hdb Hpos. unfold is_u16 in Hdb. change (2 ^ 16) with 65536 in Hdb.
  unfold Update. rewrite Hf.
  destruct (Z.eqb_spec (last_update_time_ s) now) as [Heq | Hne].
  { exists s. split; [reflexivity | split; [exact Hf | congruence]]. }
  unfold elapsed in *.
  assert (Hrem : forall d, 0 <= d -> 0 < Z.max 0 (delay_before_ s - d) ->
            u16 (Z.max 0 (delay_before_ s - d)) = delay_before_ s - d
            /\ (0 <? delay_before_ s) = true
            /\ (0 <? delay_before_ s - d) = true).
  { intros d Hd Hp. split; [| split].
    - rewrite Z.max_r by lia. apply u16_small.
      change (2 ^ 16) with 65536. lia.
    - apply Z.ltb_lt. lia.
    - apply Z.ltb_lt. lia. }
  destruct (last_update_time_ s =? kTimeUndef); fields.
  - destruct (Hrem _ (u32_nonneg (now - now)) Hpos) as (E1 & E2 & E3).
    rewrite E2, E1, E3. eexists. split; [reflexivity |].
    fields. auto.
  - destruct (Hrem _ (u32_nonneg (now - last_update_time_ s)) Hpos)
      as (E1 & E2 & E3).
    rewrite E2, E1, E3. eexists. split; [reflexivity |].
    fields. auto.
Qed.

Lemma Update_waits_during_delay_before_witness :
  exists s',
    Update 50 (set_last_update_time 0 (DelayBefore 100 (On TJLed_new)))
    = Some (true, [], s')
    /\ brightness_func_ s' = Some OnFunc
    /\ (last_update_time_
          (set_last_update_time 0 (DelayBefore 100 (On TJLed_new))) <> 50 ->
        delay_before_ s'
        = delay_before_
            (set_last_update_time 0 (DelayBefore 100 (On TJLed_new)))
          - elapsed 50
              (set_last_update_time 0 (DelayBefore 100 (On TJLed_new)))).
Proof.
  apply (Update_waits_during_delay_before 50
           (set_last_update_time 0 (DelayBefore 100 (On TJLed_new))) OnFunc).
  - reflexivity.
  - vm_compute. split; [discriminate | reflexivity].
  - vm_compute. reflexivity.
Defined.

(** ** Forever *)

Lemma Update_forever_inv
    (now : Z) (s s' : TJLed) (r : bool) (tr : list event) :
  brightness_func_ s <> None -> IsForever s = true ->
  Update now s = Some (r, tr, s') ->
  r = true
  /\ brightness_func_ s' = brightness_func_ s
  /\ IsForever s' = true
  /\ period_ s' + delay_after_ s' = period_ s + delay_after_ s.
Proof.
  intros Hact Hfe H. apply Update_cases in H.
  destruct H as [Hidle | _ _ | tr s' _ _ Hb _ Hn Hp Ha | tr s' _ _ _ Hnf].
  - congruence.
  - auto.
  - unfold IsForever in *. rewrite Hn, Hp, Ha. auto.
  - congruence.
Qed.

(** The modulo is the only undefined step of [Update]: with a non-zero
    divisor every call is defined, whatever the repeat count. *)
Lemma Update_defined (now : Z) (s : TJLed) :
  period_ s + delay_after_ s <> 0 ->
  exists r tr s', Update now s = Some (r, tr, s').
Proof.
  intros Hm. unfold Update.
  destruct (brightness_func_ s) as [f|] eqn:Hf; [| eauto].
  destruct (last_update_time_ s =? now); [eauto |].
  assert (Hrun : forall s3 : TJLed,
             brightness_func_ s3 = Some f ->
             period_ s3 = period_ s -> delay_after_ s3 = delay_after_ s ->
             exists r tr s', Update_run now s3 = Some (r, tr, s')).
  { intros s3 Hb3 Hp3 Ha3. unfold Update_run.
    destruct (negb (IsForever s3) && (time_end s3 <=? now)).
    - destruct (EvalAndWrite_defined (u32 (period_ s3 - 1)) s3 f Hb3)
        as [v ->].
      eauto.
    - destruct (Update_cycle_defined now s3 f Hb3) as (tr & fl & ->).
      + rewrite Hp3, Ha3. exact Hm.
      + eauto. }
  destruct (last_update_time_ s =? kTimeUndef); fields.
  - destruct (0 <? delay_before_ s); fields.
    + destruct (0 <? u16 _); [eauto |]. apply Hrun; fields; auto.
    + apply Hrun; fields; auto.
  - destruct (0 <? delay_before_ s); fields.
    + destruct (0 <? u16 _); [eauto |]. apply Hrun; fields; auto.
    + apply Hrun; fields; auto.
Qed.

(** [On] and [Off] pin the period to 1, so their updates are defined for
    every delay. *)
Lemma Update_On_Off_defined (now delay_after : Z) (on : bool) (s : TJLed) :
  0 <= delay_after ->
  exists r tr s', Update now (DelayAfter delay_after (Set_ on s))
                  = Some (r, tr, s').
Proof.
  intros Hda. apply Update_defined.
  destruct on; unfold Set_, On, Off, Init, DelayAfter; fields; lia.
Qed.

(** C6: with the repeat count [kRepeatForever], every [Update] call of every
    call pattern returns true and leaves the effect set; and every call is
    defined as long as [period_ + delay_after_] is not 0. *)
Theorem Forever_never_finishes
    (ts : list Z) (s : TJLed) (f : BrightnessEvalFunction) :
  brightness_func_ s = Some f ->
  IsForever s = true ->
  (forall outs s',
      run ts s = Some (outs, s') ->
      Forall (fun o => fst o = true) outs /\ brightness_func_ s' = Some f)
  /\ (period_ s + delay_after_ s <> 0 ->
      exists outs s', run ts s = Some (outs, s')).
Proof.
  revert s. induction ts as [|now ts IH]; intros s Hf Hfe.
  - split.
    + cbn [run]. intros outs s' H. injection H as <- <-. auto.
    + intros _. cbn [run]. eauto.
  - assert (Hact : brightness_func_ s <> None) by congruence.
    split.
    + cbn [run]. intros outs s' H.
      destruct (Update now s) as [[[r tr] s1]|] eqn:HU; [| discriminate].
      destruct (run ts s1) as [[outs1 s2]|] eqn:HR; [| discriminate].
      injection H as <- <-.
      destruct (Update_forever_inv now s s1 r tr Hact Hfe HU)
        as (-> & Hb1 & Hfe1 & _).
      rewrite Hf in Hb1.
      destruct (IH s1 Hb1 Hfe1) as [Hsafe _].
      destruct (Hsafe _ _ HR) as [Hall Hb2].
      split; [constructor; [reflexivity | exact Hall] | exact Hb2].
    + intros Hm. cbn [run].
      destruct (Update_defined now s Hm) as (r & tr & s1 & HU).
      rewrite HU.
      destruct (Update_forever_inv now s s1 r tr Hact Hfe HU)
        as (_ & Hb1 & Hfe1 & Hm1).
      rewrite Hf in Hb1.
      destruct (IH s1 Hb1 Hfe1) as [_ Hdef].
      destruct Hdef as (outs & s2 & HR); [rewrite Hm1; exact Hm |].
      rewrite HR. eauto.
Qed.

Lemma Forever_never_finishes_witness :
  exists outs s',
    run [0; 499; 500; 1000; 4000000000; 7]
        (Forever (Blink 500 500 TJLed_new)) = Some (outs, s')
    /\ Forall (fun o => fst o = true) outs
    /\ brightness_func_ s' = Some BlinkFunc.
Proof.
  destruct (Forever_never_finishes [0; 499; 500; 1000; 4000000000; 7]
              (Forever (Blink 500 500 TJLed_new)) BlinkFunc
              eq_refl eq_refl) as [Hsafe Hdef].
  destruct Hdef as (outs & s' & HR); [vm_compute; discriminate |].
  exists outs, s'. split; [exact HR | exact (Hsafe outs s' HR)].
Defined.

(** ** Lifetime of an effect with a finite repeat count *)

Lemma nondecreasing_cons (a b : Z) (l : list Z) :
  nondecreasing (a :: b :: l) <-> a <= b /\ nondecreasing (b :: l).
Proof. reflexivity. Qed.

Lemma Update_idle (now : Z) (s : TJLed) :
  brightness_func_ s = None -> Update now s = Some (false, [], s).
Proof. intros H. unfold Update. rewrite H. reflexivity. Qed.

Section FiniteRun.

(** The effect: brightness function [f], period [p], [n] repetitions,
    delays [db] and [da]; [t0] is the time of the first [Update]. *)
Variable f : BrightnessEvalFunction.
Variables p n db da t0 : Z.

Hypothesis Hp : is_u16 p.
Hypothesis Hda : is_u16 da.
Hypothesis Hdb : is_u16 db.
Hypothesis Hn : 1 <= n < kRepeatForever.
Hypothesis Ht0 : 0 <= t0 < kTimeUndef.
Hypothesis Hend : lifetime_end p n db da t0 < 2 ^ 32.

Local Abbreviation the_end := (lifetime_end p n db da t0).
Local Abbreviation fresh := (Fresh f p n db da).
Local Abbreviation running := (Running f p n db da t0).

Lemma finite_ranges :
  0 <= p < 65536 /\ 0 <= da < 65536 /\ 0 <= db < 65536
  /\ 1 <= n < 65535 /\ 0 <= t0 < 4294967295
  /\ t0 + db + n * (p + da) < 4294967296.
Proof.
  unfold is_u16, kRepeatForever, kTimeUndef, lifetime_end in *.
  change (2 ^ 16) with 65536 in *. change (2 ^ 32) with 4294967296 in *.
  repeat split; lia.
Qed.

Lemma cycles_bound : 0 <= p + da <= n * (p + da).
Proof. destruct finite_ranges as (? & ? & ? & ? & ? & ?). nia. Qed.

Lemma time_end_lifetime (s : TJLed) :
  time_start_ s = t0 + db ->
  delay_after_ s = da -> period_ s = p -> num_repetitions_ s = n ->
  time_end s = the_end.
Proof.
  intros Hs Ha Hq Hr. unfold time_end, the_end.
  rewrite Hs, Ha, Hq, Hr.
  destruct finite_ranges as (? & ? & ? & ? & ? & ?). pose proof cycles_bound.
  rewrite (u32_small (p + da))
    by (change (2 ^ 32) with 4294967296; lia).
  rewrite (Z.mul_comm (p + da) n).
  rewrite (u32_small (n * (p + da)))
    by (change (2 ^ 32) with 4294967296; lia).
  apply u32_small. change (2 ^ 32) with 4294967296. lia.
Qed.

Lemma IsForever_finite (s : TJLed) :
  num_repetitions_ s = n -> IsForever s = false.
Proof.
  intros Hr. unfold IsForever. rewrite Hr. apply Z.eqb_neq.
  unfold kRepeatForever in *. lia.
Qed.

(** Past the delay and before the end, [Update_run] is a cycle step. *)
Lemma Update_run_before_end (now : Z) (s : TJLed) :
  brightness_func_ s = Some f ->
  time_start_ s = t0 + db ->
  delay_after_ s = da -> period_ s = p -> num_repetitions_ s = n ->
  t0 + db <= now < the_end ->
  exists tr fl, Update_run now s = Some (true, tr, set_flags fl s).
Proof.
  intros Hf Hs Ha Hq Hr Hnow. unfold Update_run.
  rewrite (IsForever_finite s Hr), (time_end_lifetime s Hs Ha Hq Hr).
  cbn [negb andb].
  assert (Hlt : (the_end <=? now) = false) by (apply Z.leb_gt; lia).
  rewrite Hlt.
  apply (Update_cycle_defined now s f Hf).
  rewrite Ha, Hq. unfold lifetime_end in Hnow. pose proof cycles_bound. nia.
Qed.

(** At the end or after it, [Update_run] clears the effect. *)
Lemma Update_run_at_end (now : Z) (s : TJLed) :
  brightness_func_ s = Some f ->
  time_start_ s = t0 + db ->
  delay_after_ s = da -> period_ s = p -> num_repetitions_ s = n ->
  the_end <= now ->
  exists tr, Update_run now s = Some (false, tr, set_brightness_func None s).
Proof.
  intros Hf Hs Ha Hq Hr Hnow. unfold Update_run.
  rewrite (IsForever_finite s Hr), (time_end_lifetime s Hs Ha Hq Hr).
  cbn [negb andb].
  assert (Hle : (the_end <=? now) = true) by (apply Z.leb_le; lia).
  rewrite Hle.
  destruct (EvalAndWrite_defined (u32 (period_ s - 1)) s f Hf) as [v ->].
  eauto.
Qed.

(** Both cases at once, for a state past its delay. *)
Lemma Update_run_lifetime (now : Z) (s : TJLed) :
  brightness_func_ s = Some f ->
  last_update_time_ s = now ->
  time_start_ s = t0 + db ->
  delay_before_ s = 0 ->
  delay_after_ s = da -> period_ s = p -> num_repetitions_ s = n ->
  t0 + db <= now ->
  exists tr s',
    Update_run now s = Some (now <? the_end, tr, s')
    /\ if now <? the_end then running now s'
       else brightness_func_ s' = None.
Proof.
  intros Hf Hl Hs Hd Ha Hq Hr Hnow.
  destruct finite_ranges as (? & ? & ? & ? & ? & ?).
  destruct (Z.ltb_spec now the_end) as [Hlt | Hge].
  - destruct (Update_run_before_end now s Hf Hs Ha Hq Hr) as (tr & fl & ->);
      [lia |].
    exists tr, (set_flags fl s). split; [reflexivity |].
    unfold Running. fields. rewrite Hd.
    repeat split; try assumption; lia.
  - destruct (Update_run_at_end now s Hf Hs Ha Hq Hr Hge) as (tr & ->).
    eauto.
Qed.

(** The first call. *)
Lemma Update_first (s : TJLed) :
  fresh s ->
  exists tr s',
    Update t0 s = Some (t0 <? the_end, tr, s')
    /\ if t0 <? the_end then running t0 s'
       else brightness_func_ s' = None.
Proof.
  intros (Hf & Hl & Hd & Ha & Hq & Hr).
  destruct finite_ranges as (? & ? & ? & ? & ? & ?). pose proof cycles_bound.
  unfold Update. rewrite Hf, Hl.
  assert (Hne : (kTimeUndef =? t0) = false)
    by (apply Z.eqb_neq; unfold kTimeUndef; lia).
  rewrite Hne, Z.eqb_refl. fields.
  rewrite Hd, Z.sub_diag.
  change (u32 0) with 0. rewrite Z.sub_0_r.
  rewrite (u32_small (t0 + db))
    by (unfold lifetime_end in *; change (2 ^ 32) with 4294967296; lia).
  rewrite Z.max_r by lia.
  rewrite (u16_small db) by (change (2 ^ 16) with 65536; lia).
  destruct (Z.ltb_spec 0 db) as [Hpos | Hzero].
  - assert (Hlt : (t0 <? the_end) = true)
      by (apply Z.ltb_lt; unfold lifetime_end; lia).
    rewrite Hlt. eexists. eexists. split; [reflexivity |].
    unfold Running, lifetime_end. fields.
    repeat split; try assumption; lia.
  - apply Update_run_lifetime; fields; auto; lia.
Qed.

(** A later call. *)
Lemma Update_next (tl now : Z) (s : TJLed) :
  running tl s -> tl <= now -> now < 2 ^ 32 ->
  exists tr s',
    Update now s = Some (now <? the_end, tr, s')
    /\ if now <? the_end then running now s'
       else brightness_func_ s' = None.
Proof.
  intros Hrun Hnow Hin. change (2 ^ 32) with 4294967296 in Hin.
  pose proof Hrun as (Htl & Hf & Hl & Hs & Hd & Ha & Hq & Hr).
  destruct finite_ranges as (? & ? & ? & ? & ? & ?). pose proof cycles_bound.
  unfold lifetime_end in Htl.
  unfold Update. rewrite Hf, Hl.
  destruct (Z.eqb_spec tl now) as [-> | Hne].
  { assert (Hlt : (now <? the_end) = true)
      by (apply Z.ltb_lt; unfold lifetime_end; lia).
    rewrite Hlt. eauto. }
  assert (Hundef : (tl =? kTimeUndef) = false)
    by (apply Z.eqb_neq; unfold kTimeUndef; lia).
  rewrite Hundef. fields. rewrite Hl, Hd.
  destruct (Z.ltb_spec 0 (Z.max 0 (db - (tl - t0)))) as [Hpos | Hzero].
  - rewrite (u32_small (now - tl))
      by (change (2 ^ 32) with 4294967296; lia).
    replace (u16 (Z.max 0 (Z.max 0 (db - (tl - t0)) - (now - tl))))
      with (Z.max 0 (db - (now - t0)))
      by (symmetry; rewrite u16_small;
          [lia | change (2 ^ 16) with 65536; lia]).
    destruct (Z.ltb_spec 0 (Z.max 0 (db - (now - t0)))) as [Hpos' | Hz'].
    + assert (Hlt : (now <? the_end) = true)
        by (apply Z.ltb_lt; unfold lifetime_end; lia).
      rewrite Hlt. eexists. eexists. split; [reflexivity |].
      unfold Running, lifetime_end. fields.
      repeat split; try assumption; lia.
    + apply Update_run_lifetime; fields; auto; lia.
  - apply Update_run_lifetime; fields; auto; lia.
Qed.

(** Once the effect is cleared, every later call returns false. *)
Lemma run_idle (ts : list Z) (s : TJLed) :
  brightness_func_ s = None ->
  run ts s = Some (map (fun _ => (false, [])) ts, s).
Proof.
  intros Hidle. induction ts as [|now ts IH]; [reflexivity |].
  cbn [run map]. rewrite (Update_idle now s Hidle), IH. reflexivity.
Qed.

Lemma past_end_from (tl : Z) (ts : list Z) :
  the_end <= tl -> nondecreasing (tl :: ts) ->
  map (fun now => now <? the_end) ts = map (fun _ => false) ts.
Proof.
  revert tl. induction ts as [|now ts IH]; intros tl Hge Hnd.
  - reflexivity.
  - apply nondecreasing_cons in Hnd. destruct Hnd as [Hle Hnd].
    assert (Hf : (now <? the_end) = false) by (apply Z.ltb_ge; lia).
    cbn [map]. rewrite Hf, (IH now) by (assumption || lia). reflexivity.
Qed.

(** The calls after a call at [tl] that left the effect running. *)
Lemma run_from_running (ts : list Z) (tl : Z) (s : TJLed) :
  running tl s ->
  nondecreasing (tl :: ts) ->
  Forall (fun now => now < 2 ^ 32) ts ->
  exists outs s',
    run ts s = Some (outs, s')
    /\ map fst outs = map (fun now => now <? the_end) ts
    /\ brightness_func_ s'
       = if forallb (fun now => now <? the_end) ts
         then Some f else None.
Proof.
  revert tl s. induction ts as [|now ts IH]; intros tl s Hrun Hnd Hall.
  - exists [], s. cbn [run map forallb].
    destruct Hrun as (_ & Hf & _). auto.
  - apply nondecreasing_cons in Hnd. destruct Hnd as [Hle Hnd].
    inversion Hall as [|? ? Hnow Hall']; subst.
    destruct (Update_next tl now s Hrun Hle Hnow) as (tr & s1 & HU & Hs1).
    cbn [run map forallb]. rewrite HU.
    destruct (Z.ltb_spec now the_end) as [Hlt | Hge].
    + destruct (IH now s1 Hs1 Hnd Hall') as (outs & s2 & HR & Hm & Hb).
      rewrite HR. exists ((true, tr) :: outs), s2.
      cbn [map fst andb]. rewrite Hm. auto.
    + rewrite (run_idle ts s1 Hs1).
      pose proof (past_end_from now ts Hge Hnd) as Hm.
      exists ((false, tr) :: map (fun _ => (false, [])) ts), s1.
      cbn [map fst andb]. rewrite map_map. cbn [fst]. rewrite Hm. auto.
Qed.

(** X21: inside the clock's range the lifetime of a finite effect is exact.
    For an effect with a finite repeat count [1 <= n < 65535] and 16-bit
    period [p] and delays [db], [da], selected and not yet updated, first
    updated at a time [t0] other than [kTimeUndef = 2^32 - 1] and then at
    non-decreasing 32-bit times, and with the end of its lifetime
    [t0 + db + n * (p + da)] below 2^32: every call is defined, the call at
    [now] returns true exactly when [now < t0 + db + n * (p + da)], and the
    effect is still set afterwards exactly when every call came before that
    time (the first call at or after it returns false and clears the
    effect, which stays cleared). *)
Theorem finite_effect_lifetime (ts : list Z) (s : TJLed) :
  fresh s ->
  nondecreasing (t0 :: ts) ->
  Forall (fun now => now < 2 ^ 32) ts ->
  exists outs s',
    run (t0 :: ts) s = Some (outs, s')
    /\ map fst outs = map (fun now => now <? the_end) (t0 :: ts)
    /\ brightness_func_ s'
       = if forallb (fun now => now <? the_end) (t0 :: ts)
         then Some f else None.
Proof.
  intros Hfresh Hnd Hall.
  destruct (Update_first s Hfresh) as (tr & s1 & HU & Hs1).
  cbn [run map forallb]. rewrite HU.
  destruct (Z.ltb_spec t0 the_end) as [Hlt | Hge].
  - destruct (run_from_running ts t0 s1 Hs1 Hnd Hall)
      as (outs & s2 & HR & Hm & Hb).
    rewrite HR. exists ((true, tr) :: outs), s2.
    cbn [map fst andb]. rewrite Hm. auto.
  - rewrite (run_idle ts s1 Hs1).
    pose proof (past_end_from t0 ts Hge Hnd) as Hm.
    exists ((false, tr) :: map (fun _ => (false, [])) ts), s1.
    cbn [map fst andb]. rewrite map_map. cbn [fst]. rewrite Hm. auto.
Qed.

End FiniteRun.

Lemma finite_effect_lifetime_witness :
  exists outs s',
    run [10; 50; 110; 1000; 2209; 2210; 2210; 3000]
        (Repeat 2 (DelayAfter 50 (DelayBefore 100 (Blink 500 500 TJLed_new))))
    = Some (outs, s')
    /\ map fst outs
       = map (fun now => now <? lifetime_end 1000 2 100 50 10)
             [10; 50; 110; 1000; 2209; 2210; 2210; 3000]
    /\ brightness_func_ s'
       = if forallb (fun now => now <? lifetime_end 1000 2 100 50 10)
                    [10; 50; 110; 1000; 2209; 2210; 2210; 3000]
         then Some BlinkFunc else None.
Proof.
  apply (finite_effect_lifetime BlinkFunc 1000 2 100 50 10).
  - unfold is_u16. lia.
  - unfold is_u16. lia.
  - unfold is_u16. lia.
  - unfold kRepeatForever. lia.
  - unfold kTimeUndef. lia.
  - vm_compute. reflexivity.
  - repeat split; reflexivity.
  - cbn [nondecreasing]. lia.
  - repeat constructor; vm_compute; reflexivity.
Defined.

(** C1: the call that returns false is not always the first call at or
    after [t0 + delay_before + n * (p + delay_after)].
    (1) [Blink(500, 500)] with one repetition, first updated at
    [2^32 - 100]: the lifetime ends 1000 ms later, yet [time_end] wraps to
    900 and the first call already returns false.
    (2) A period and delays of 0, first updated at [2^32 - 1 = kTimeUndef]:
    the lifetime ends at that very time, yet the call is taken for a
    duplicate and returns true. *)
Lemma finite_effect_lifetime_out_of_range :
  ~ (exists outs s',
        run [4294967196] (Blink 500 500 TJLed_new) = Some (outs, s')
        /\ map fst outs
           = map (fun now => now <? lifetime_end 1000 1 0 0 4294967196)
                 [4294967196])
  /\
  ~ (exists outs s',
        run [4294967295] (UserFunc OnFunc 0 0 TJLed_new) = Some (outs, s')
        /\ map fst outs
           = map (fun now => now <? lifetime_end 0 1 0 0 4294967295)
                 [4294967295]).
Proof.
  split; intros (outs & s' & HR & Hm);
    vm_compute in HR; injection HR as <- _;
    vm_compute in Hm; discriminate.
Qed.

(** ** Period of the selected effect *)

(** [On] and [Off] pin the period to 1; the other selectors take it from
    their argument, 0 included. *)
Lemma selector_periods (s : TJLed) (d d' : Z) (f : BrightnessEvalFunction) :
  period_ (On s) = 1 /\ period_ (Off s) = 1
  /\ period_ (FadeOn d s) = d /\ period_ (FadeOff d s) = d
  /\ period_ (Breathe d s) = d
  /\ period_ (Blink d d' s) = u16 (d + d')
  /\ period_ (UserFunc f d d' s) = d.
Proof. repeat split. Qed.

(** ** Flags *)

Lemma land_pow2 (x k : Z) :
  0 <= k -> (Z.land x (2 ^ k) =? 0) = negb (Z.testbit x k).
Proof.
  intros Hk.
  assert (H : Z.land x (2 ^ k) = if Z.testbit x k then 2 ^ k else 0).
  { apply Z.bits_inj'. intros i Hi.
    rewrite Z.land_spec, Z.pow2_bits_eqb by lia.
    destruct (Z.eqb_spec k i) as [<- | Hne].
    - destruct (Z.testbit x k); cbn [andb].
      + rewrite Z.pow2_bits_eqb by lia. symmetry. apply Z.eqb_refl.
      + symmetry. apply Z.bits_0.
    - rewrite andb_false_r.
      destruct (Z.testbit x k).
      + rewrite Z.pow2_bits_eqb by lia. symmetry. apply Z.eqb_neq. exact Hne.
      + symmetry. apply Z.bits_0. }
  rewrite H. destruct (Z.testbit x k); cbn [negb].
  - apply Z.eqb_neq. apply Z.pow_nonzero; lia.
  - reflexivity.
Qed.

Lemma GetFlag_testbit (k : Z) (s : TJLed) :
  0 <= k -> GetFlag (2 ^ k) s = Z.testbit (flags_ s) k.
Proof.
  intros Hk. unfold GetFlag. rewrite land_pow2 by lia. apply negb_involutive.
Qed.

Lemma u8_testbit (x j : Z) : 0 <= j < 8 -> Z.testbit (u8 x) j = Z.testbit x j.
Proof. intros Hj. unfold u8. apply Z.mod_pow2_bits_low. lia. Qed.

Lemma GetFlag_SetFlags (k j : Z) (v : bool) (s : TJLed) :
  0 <= k < 8 -> 0 <= j < 8 ->
  GetFlag (2 ^ j) (SetFlags (2 ^ k) v s)
  = if j =? k then v else GetFlag (2 ^ j) s.
Proof.
  intros Hk Hj. rewrite !GetFlag_testbit by lia.
  unfold SetFlags. destruct v; fields; rewrite u8_testbit by lia.
  - rewrite Z.lor_spec, Z.pow2_bits_eqb by lia.
    rewrite (Z.eqb_sym k j). destruct (j =? k).
    + apply orb_true_r.
    + apply orb_false_r.
  - rewrite Z.land_spec, Z.lnot_spec, Z.pow2_bits_eqb by lia.
    rewrite (Z.eqb_sym k j). destruct (j =? k); cbn [negb].
    + apply andb_false_r.
    + apply andb_true_r.
Qed.

Lemma SetFlags_flags_range (f : Z) (v : bool) (s : TJLed) :
  0 <= flags_ (SetFlags f v s) < 2 ^ 8.
Proof.
  unfold SetFlags. destruct v; fields; unfold u8;
    apply Z.mod_pos_bound; reflexivity.
Qed.

Lemma SetInDelayAfterPhase_flags (v : bool) (s : TJLed) :
  IsInDelayAfterPhase (SetInDelayAfterPhase v s) = v
  /\ IsInverted (SetInDelayAfterPhase v s) = IsInverted s
  /\ IsLowActive (SetInDelayAfterPhase v s) = IsLowActive s.
Proof.
  unfold IsInDelayAfterPhase, IsInverted, IsLowActive, SetInDelayAfterPhase.
  change FL_IN_DELAY_PHASE with (2 ^ 2). change FL_INVERTED with (2 ^ 0).
  change FL_LOW_ACTIVE with (2 ^ 1).
  rewrite !GetFlag_SetFlags by lia. auto.
Qed.

(** X1: the three flags are independent bits of [flags_].  Setting or
    clearing flag [2^k] makes it read back as the value set, leaves every
    other flag [2^j] as it read before, and keeps [flags_] a byte. *)
Theorem flags_independent (k j : Z) (v : bool) (s : TJLed) :
  0 <= k < 8 -> 0 <= j < 8 ->
  GetFlag (2 ^ k) (SetFlags (2 ^ k) v s) = v
  /\ (j <> k ->
      GetFlag (2 ^ j) (SetFlags (2 ^ k) v s) = GetFlag (2 ^ j) s)
  /\ 0 <= flags_ (SetFlags (2 ^ k) v s) < 2 ^ 8.
Proof.
  intros Hk Hj. split; [| split].
  - rewrite GetFlag_SetFlags, Z.eqb_refl by lia. reflexivity.
  - intros Hne. rewrite GetFlag_SetFlags by lia.
    apply Z.eqb_neq in Hne. rewrite Hne. reflexivity.
  - apply SetFlags_flags_range.
Qed.

Lemma flags_independent_witness :
  GetFlag FL_LOW_ACTIVE (SetFlags FL_LOW_ACTIVE false (Invert (LowActive TJLed_new)))
  = false
  /\ (0 <> 1 ->
      GetFlag FL_INVERTED
        (SetFlags FL_LOW_ACTIVE false (Invert (LowActive TJLed_new)))
      = GetFlag FL_INVERTED (Invert (LowActive TJLed_new)))
  /\ 0 <= flags_ (SetFlags FL_LOW_ACTIVE false (Invert (LowActive TJLed_new)))
     < 2 ^ 8.
Proof.
  apply (flags_independent 1 0 false (Invert (LowActive TJLed_new))); lia.
Defined.

(** X2: the builder calls [Invert] and [LowActive] each set their own flag
    and leave the other flag and the delay-phase marker as they were. *)
Theorem Invert_LowActive_flags (s : TJLed) :
  (IsInverted (Invert s) = true
   /\ IsLowActive (Invert s) = IsLowActive s
   /\ IsInDelayAfterPhase (Invert s) = IsInDelayAfterPhase s)
  /\ (IsLowActive (LowActive s) = true
      /\ IsInverted (LowActive s) = IsInverted s
      /\ IsInDelayAfterPhase (LowActive s) = IsInDelayAfterPhase s).
Proof.
  unfold IsInDelayAfterPhase, IsInverted, IsLowActive, Invert, LowActive.
  change FL_IN_DELAY_PHASE with (2 ^ 2). change FL_INVERTED with (2 ^ 0).
  change FL_LOW_ACTIVE with (2 ^ 1).
  rewrite !GetFlag_SetFlags by lia. repeat split.
Qed.

(** ** The output transform *)

Lemma port_value_cases (s : TJLed) (raw : Z) :
  port_value s raw
  = if xorb (IsInverted s) (IsLowActive s) then 255 - u8 raw else u8 raw.
Proof.
  unfold port_value, kFullBrightness. pose proof (u8_range raw) as Hr.
  destruct (IsInverted s), (IsLowActive s); cbn [xorb].
  - rewrite u8_small by (change (2 ^ 8) with 256; lia). lia.
  - rewrite u8_small by (change (2 ^ 8) with 256; lia). reflexivity.
  - rewrite u8_small by (change (2 ^ 8) with 256; lia). reflexivity.
  - apply u8_small. change (2 ^ 8) with 256. lia.
Qed.

Lemma EvalAndWrite_port_value (t : Z) (s : TJLed) (f : BrightnessEvalFunction) :
  brightness_func_ s = Some f ->
  EvalAndWrite t s
  = Some [Eval t; Write (port_value s (f t (period_ s) (effect_param_ s)))].
Proof.
  intros Hf. unfold EvalAndWrite, EvalBrightness, AnalogWrite, port_value.
  rewrite Hf. reflexivity.
Qed.

(** X3: [AnalogWrite(EvalBrightness(t))] calls the brightness function once
    at [t] and writes one byte: the raw value [v] when the inversion and
    the polarity are both off or both on (they cancel), and [255 - v] when
    exactly one of them is on. *)
Theorem EvalAndWrite_transform (t : Z) (s : TJLed) (f : BrightnessEvalFunction) :
  brightness_func_ s = Some f ->
  let v := u8 (f t (period_ s) (effect_param_ s)) in
  EvalAndWrite t s
  = Some [Eval t;
          Write (if xorb (IsInverted s) (IsLowActive s) then 255 - v else v)]
  /\ 0 <= (if xorb (IsInverted s) (IsLowActive s) then 255 - v else v) <= 255.
Proof.
  intros Hf v. split.
  - rewrite (EvalAndWrite_port_value t s f Hf), port_value_cases. reflexivity.
  - subst v. pose proof (u8_range (f t (period_ s) (effect_param_ s))).
    destruct (xorb _ _); lia.
Qed.

Lemma EvalAndWrite_transform_witness :
  let s := Invert (LowActive (FadeOn 10 TJLed_new)) in
  let v := u8 (FadeOnFunc 7 (period_ s) (effect_param_ s)) in
  EvalAndWrite 7 s
  = Some [Eval 7;
          Write (if xorb (IsInverted s) (IsLowActive s) then 255 - v else v)]
  /\ 0 <= (if xorb (IsInverted s) (IsLowActive s) then 255 - v else v) <= 255.
Proof.
  apply (EvalAndWrite_transform 7 (Invert (LowActive (FadeOn 10 TJLed_new)))
           FadeOnFunc).
  reflexivity.
Defined.

(** ** One [Update] call, step by step *)

Lemma Update_unfold (now : Z) (s : TJLed) (f : BrightnessEvalFunction) :
  brightness_func_ s = Some f -> last_update_time_ s <> now ->
  Update now s
  = if 0 <? delay_before_ (Update_pre now s)
    then Some (true, [], Update_pre now s)
    else Update_run now (Update_pre now s).
Proof.
  intros Hf Hne. unfold Update, Update_pre. rewrite Hf.
  apply Z.eqb_neq in Hne. rewrite Hne.
  destruct (last_update_time_ s =? kTimeUndef); fields.
  - destruct (0 <? delay_before_ s) eqn:Hd; fields.
    + reflexivity.
    + rewrite Hd. reflexivity.
  - destruct (0 <? delay_before_ s) eqn:Hd; fields.
    + reflexivity.
    + rewrite Hd. reflexivity.
Qed.

Lemma Update_pre_fields (now : Z) (s : TJLed) :
  brightness_func_ (Update_pre now s) = brightness_func_ s
  /\ effect_param_ (Update_pre now s) = effect_param_ s
  /\ flags_ (Update_pre now s) = flags_ s
  /\ num_repetitions_ (Update_pre now s) = num_repetitions_ s
  /\ delay_after_ (Update_pre now s) = delay_after_ s
  /\ period_ (Update_pre now s) = period_ s
  /\ last_update_time_ (Update_pre now s) = now
  /\ time_start_ (Update_pre now s)
     = (if last_update_time_ s =? kTimeUndef
        then u32 (now + delay_before_ s) else time_start_ s).
Proof.
  unfold Update_pre.
  destruct (last_update_time_ s =? kTimeUndef); fields;
    destruct (0 <? delay_before_ s); fields; repeat split.
Qed.

Lemma Update_pre_delay_before (now : Z) (s : TJLed) :
  is_u16 (delay_before_ s) ->
  0 <= delay_before_ (Update_pre now s) <= delay_before_ s.
Proof.
  unfold is_u16. change (2 ^ 16) with 65536. intros Hd. unfold Update_pre.
  assert (Hdec : forall d, 0 <= d ->
            0 <= u16 (Z.max 0 (delay_before_ s - d)) <= delay_before_ s).
  { intros d Hd0. rewrite u16_small by (change (2 ^ 16) with 65536; lia).
    lia. }
  destruct (last_update_time_ s =? kTimeUndef); fields;
    destruct (0 <? delay_before_ s); fields;
    solve [lia | apply Hdec, u32_nonneg].
Qed.

Lemma Update_cycle_cases
    (now : Z) (s s' : TJLed) (r : bool) (tr : list event) :
  Update_cycle now s = Some (r, tr, s') ->
  period_ s + delay_after_ s <> 0 /\ r = true
  /\ ((phase now s < period_ s
       /\ s' = SetInDelayAfterPhase false s
       /\ EvalAndWrite (phase now s) s' = Some tr)
      \/ (period_ s <= phase now s /\ IsInDelayAfterPhase s = false
          /\ s' = SetInDelayAfterPhase true s
          /\ EvalAndWrite (u32 (period_ s - 1)) s' = Some tr)
      \/ (period_ s <= phase now s /\ IsInDelayAfterPhase s = true
          /\ s' = s /\ tr = [])).
Proof.
  unfold Update_cycle. fold (phase now s).
  destruct (Z.eqb_spec (period_ s + delay_after_ s) 0) as [| Hm];
    [discriminate |].
  destruct (Z.ltb_spec (phase now s) (period_ s)) as [Hlt | Hge].
  - destruct (EvalAndWrite _ _) as [tr0|] eqn:HE; [| discriminate].
    intros H; injection H as <- <- <-. auto 10.
  - destruct (IsInDelayAfterPhase s) eqn:Hph; cbn [negb].
    + intros H; injection H as <- <- <-. auto 10.
    + destruct (EvalAndWrite _ _) as [tr0|] eqn:HE; [| discriminate].
      intros H; injection H as <- <- <-.
      split; [exact Hm | split; [reflexivity |]].
      right. left. repeat split; assumption.
Qed.

Lemma Update_run_cases
    (now : Z) (s s' : TJLed) (r : bool) (tr : list event) :
  Update_run now s = Some (r, tr, s') ->
  (IsForever s = false /\ time_end s <= now /\ r = false
   /\ EvalAndWrite (u32 (period_ s - 1)) s = Some tr
   /\ s' = set_brightness_func None s)
  \/ ((IsForever s = true \/ now < time_end s)
      /\ Update_cycle now s = Some (r, tr, s')).
Proof.
  unfold Update_run.
  destruct (IsForever s); cbn [negb andb]; [auto |].
  destruct (Z.leb_spec (time_end s) now) as [Hle | Hgt]; [| auto].
  destruct (EvalAndWrite _ _) as [tr0|]; [| discriminate].
  intros H; injection H as <- <- <-. left. auto.
Qed.

Lemma SetInDelayAfterPhase_fields (v : bool) (s : TJLed) :
  brightness_func_ (SetInDelayAfterPhase v s) = brightness_func_ s
  /\ effect_param_ (SetInDelayAfterPhase v s) = effect_param_ s
  /\ num_repetitions_ (SetInDelayAfterPhase v s) = num_repetitions_ s
  /\ last_update_time_ (SetInDelayAfterPhase v s) = last_update_time_ s
  /\ delay_before_ (SetInDelayAfterPhase v s) = delay_before_ s
  /\ delay_after_ (SetInDelayAfterPhase v s) = delay_after_ s
  /\ time_start_ (SetInDelayAfterPhase v s) = time_start_ s
  /\ period_ (SetInDelayAfterPhase v s) = period_ s.
Proof.
  unfold SetInDelayAfterPhase, SetFlags. destruct v; repeat split.
Qed.

Lemma Update_split
    (now : Z) (s s' : TJLed) (r : bool) (tr : list event) :
  Update now s = Some (r, tr, s') ->
  (s' = s /\ tr = []
   /\ (brightness_func_ s = None \/ last_update_time_ s = now))
  \/ (brightness_func_ s <> None /\ last_update_time_ s <> now
      /\ ((0 < delay_before_ (Update_pre now s)
           /\ r = true /\ tr = [] /\ s' = Update_pre now s)
          \/ (delay_before_ (Update_pre now s) <= 0
              /\ Update_run now (Update_pre now s) = Some (r, tr, s')))).
Proof.
  destruct (brightness_func_ s) as [f|] eqn:Hf.
  2:{ rewrite (Update_idle now s Hf). intros H; injection H as <- <- <-.
      auto. }
  destruct (Z.eq_dec (last_update_time_ s) now) as [Heq | Hne].
  { unfold Update. rewrite Hf. apply Z.eqb_eq in Heq. rewrite Heq.
    intros H; injection H as <- <- <-. apply Z.eqb_eq in Heq. auto. }
  rewrite (Update_unfold now s f Hf Hne).
  destruct (Z.ltb_spec 0 (delay_before_ (Update_pre now s))) as [Hpos | Hz].
  - intros H; injection H as <- <- <-. right.
    split; [congruence | split; [exact Hne |]]. left. auto.
  - intros H. right. split; [congruence | split; [exact Hne |]]. right. auto.
Qed.

Lemma Update_run_state
    (now : Z) (s s' : TJLed) (r : bool) (tr : list event) :
  Update_run now s = Some (r, tr, s') ->
  same_config s s'
  /\ last_update_time_ s' = last_update_time_ s
  /\ delay_before_ s' = delay_before_ s
  /\ time_start_ s' = time_start_ s
  /\ (0 <= flags_ s < 2 ^ 8 -> 0 <= flags_ s' < 2 ^ 8)
  /\ (brightness_func_ s' = brightness_func_ s \/ brightness_func_ s' = None).
Proof.
  intros H. unfold same_config.
  assert (Hflag : forall v,
    let s1 := SetInDelayAfterPhase v s in
    (effect_param_ s1 = effect_param_ s
     /\ num_repetitions_ s1 = num_repetitions_ s
     /\ delay_after_ s1 = delay_after_ s
     /\ period_ s1 = period_ s
     /\ IsInverted s1 = IsInverted s
     /\ IsLowActive s1 = IsLowActive s)
    /\ last_update_time_ s1 = last_update_time_ s
    /\ delay_before_ s1 = delay_before_ s
    /\ time_start_ s1 = time_start_ s
    /\ (0 <= flags_ s < 2 ^ 8 -> 0 <= flags_ s1 < 2 ^ 8)
    /\ (brightness_func_ s1 = brightness_func_ s
        \/ brightness_func_ s1 = None)).
  { intros v s1. subst s1.
    destruct (SetInDelayAfterPhase_flags v s) as (_ & Hi & Hl).
    destruct (SetInDelayAfterPhase_fields v s)
      as (Hb & He & Hn & Hlu & Hdb & Hda & Hts & Hp).
    split; [repeat split; assumption |].
    split; [assumption |]. split; [assumption |]. split; [assumption |].
    split; [intros _; apply SetFlags_flags_range | left; assumption]. }
  apply Update_run_cases in H.
  destruct H as [(_ & _ & _ & _ & ->) | (_ & H)].
  - fields. split; [repeat split |]. auto 10.
  - apply Update_cycle_cases in H.
    destruct H as (_ & _ & [(_ & -> & _) | [(_ & _ & -> & _) | (_ & _ & -> & _)]]).
    + apply Hflag.
    + apply Hflag.
    + split; [repeat split |]. auto 10.
Qed.

(** X4: [Update] never changes the configuration of the effect: the
    period, the delay after, the repeat count, the effect parameter and the
    inversion and polarity flags are after the call what they were before. *)
Theorem Update_preserves_config
    (now : Z) (s s' : TJLed) (r : bool) (tr : list event) :
  Update now s = Some (r, tr, s') -> same_config s s'.
Proof.
  intros H. apply Update_split in H.
  destruct H as [(-> & _) | (_ & _ & [(_ & _ & _ & ->) | (_ & H)])].
  - unfold same_config. repeat split.
  - destruct (Update_pre_fields now s) as (_ & He & Hfl & Hn & Hda & Hp & _).
    unfold same_config, IsInverted, IsLowActive, GetFlag.
    rewrite He, Hfl, Hn, Hda, Hp. repeat split.
  - apply Update_run_state in H. destruct H as (Hc & _).
    destruct (Update_pre_fields now s) as (_ & He & Hfl & Hn & Hda & Hp & _).
    unfold same_config, IsInverted, IsLowActive, GetFlag in *.
    rewrite He, Hfl, Hn, Hda, Hp in Hc. exact Hc.
Qed.

Lemma Update_preserves_config_witness :
  same_config
    (Invert (DelayAfter 50 (Blink 500 500 TJLed_new)))
    (SetInDelayAfterPhase false
       (set_time_start 250
          (set_last_update_time 250
             (Invert (DelayAfter 50 (Blink 500 500 TJLed_new)))))).
Proof.
  apply (Update_preserves_config 250
           (Invert (DelayAfter 50 (Blink 500 500 TJLed_new))) _
           true [Eval 0; Write 0]).
  vm_compute. reflexivity.
Defined.

(** X5: [Update] only ever consumes the delay before the effect:
    [delay_before_] stays a non-negative value and never grows. *)
Theorem Update_delay_before_nonincreasing
    (now : Z) (s s' : TJLed) (r : bool) (tr : list event) :
  is_u16 (delay_before_ s) ->
  Update now s = Some (r, tr, s') ->
  0 <= delay_before_ s' <= delay_before_ s.
Proof.
  intros Hd H. pose proof (Update_pre_delay_before now s Hd) as Hpre.
  unfold is_u16 in Hd.
  apply Update_split in H.
  destruct H as [(-> & _) | (_ & _ & [(_ & _ & _ & ->) | (_ & H)])].
  - lia.
  - exact Hpre.
  - apply Update_run_state in H. destruct H as (_ & _ & Hdb & _).
    rewrite Hdb. exact Hpre.
Qed.

Lemma Update_delay_before_nonincreasing_witness :
  0 <= delay_before_
         (set_delay_before 60
            (set_last_update_time 50
               (set_time_start 110
                  (set_last_update_time 10
                     (DelayBefore 100 (On TJLed_new))))))
    <= delay_before_
         (set_time_start 110
            (set_last_update_time 10 (DelayBefore 100 (On TJLed_new)))).
Proof.
  apply (Update_delay_before_nonincreasing 50
           (set_time_start 110
              (set_last_update_time 10 (DelayBefore 100 (On TJLed_new))))
           _ true []).
  - unfold is_u16. cbn. lia.
  - vm_compute. reflexivity.
Defined.

Lemma port_value_range (s : TJLed) (raw : Z) : 0 <= port_value s raw <= 255.
Proof.
  rewrite port_value_cases. pose proof (u8_range raw).
  destruct (xorb _ _); lia.
Qed.

Lemma EvalAndWrite_shape (t : Z) (s : TJLed) (tr : list event) :
  EvalAndWrite t s = Some tr ->
  exists v, tr = [Eval t; Write v] /\ 0 <= v <= 255.
Proof.
  destruct (brightness_func_ s) as [f|] eqn:Hf.
  - rewrite (EvalAndWrite_port_value t s f Hf).
    intros H; injection H as <-. eexists. split; [reflexivity |].
    apply port_value_range.
  - unfold EvalAndWrite, EvalBrightness. rewrite Hf. discriminate.
Qed.

Lemma phase_range (now : Z) (s : TJLed) :
  0 < period_ s + delay_after_ s ->
  0 <= phase now s < period_ s + delay_after_ s.
Proof. intros H. unfold phase. apply Z.mod_pos_bound. exact H. Qed.

(** X6: a call of [Update] evaluates the brightness function at most once and
    writes at most once, in that order.  For a period of at least 1 the
    evaluation time lies in [0 .. period - 1], as the comment on
    [BrightnessEvalFunction] promises, and the value written is a byte. *)
Theorem Update_trace_shape
    (now : Z) (s s' : TJLed) (r : bool) (tr : list event) :
  1 <= period_ s < 2 ^ 16 -> 0 <= delay_after_ s ->
  Update now s = Some (r, tr, s') ->
  tr = []
  \/ exists t v, tr = [Eval t; Write v]
                 /\ 0 <= t < period_ s /\ 0 <= v <= 255.
Proof.
  intros Hp Hda H. change (2 ^ 16) with 65536 in Hp.
  apply Update_split in H.
  destruct H as [(_ & -> & _) | (_ & _ & [(_ & _ & -> & _) | (_ & H)])];
    [auto | auto |].
  destruct (Update_pre_fields now s) as (_ & _ & _ & _ & Ea & Eq & _).
  set (s3 := Update_pre now s) in *.
  assert (Hlast : u32 (period_ s3 - 1) = period_ s - 1).
  { rewrite Eq. apply u32_small. change (2 ^ 32) with 4294967296. lia. }
  assert (Hshape : forall t s4, 0 <= t < period_ s ->
            EvalAndWrite t s4 = Some tr ->
            exists t v, tr = [Eval t; Write v]
                        /\ 0 <= t < period_ s /\ 0 <= v <= 255).
  { intros t s4 Ht HE. apply EvalAndWrite_shape in HE.
    destruct HE as (v & -> & Hv). eauto. }
  apply Update_run_cases in H.
  destruct H as [(_ & _ & _ & HE & _) | (_ & H)].
  - right. rewrite Hlast in HE. eapply Hshape; [| exact HE]. lia.
  - apply Update_cycle_cases in H.
    destruct H as (_ & _ & [(Hlt & _ & HE) | [(_ & _ & _ & HE) | (_ & _ & _ & ->)]]).
    + right. eapply Hshape; [| exact HE].
      assert (Hm : 0 < period_ s3 + delay_after_ s3) by lia.
      pose proof (phase_range now s3 Hm). lia.
    + right. rewrite Hlast in HE. eapply Hshape; [| exact HE]. lia.
    + auto.
Qed.

Lemma Update_trace_shape_witness :
  [Eval 499; Write 0] = []
  \/ exists t v, [Eval 499; Write 0] = [Eval t; Write v]
                 /\ 0 <= t < period_ (DelayAfter 100 (Blink 300 200 TJLed_new))
                 /\ 0 <= v <= 255.
Proof.
  apply (Update_trace_shape 1550
           (set_time_start 1000
              (set_last_update_time 1400
                 (Forever (DelayAfter 100 (Blink 300 200 TJLed_new)))))
           (SetInDelayAfterPhase true
              (set_time_start 1000
                 (set_last_update_time 1550
                    (Forever (DelayAfter 100 (Blink 300 200 TJLed_new))))))
           true [Eval 499; Write 0]).
  - cbn. lia.
  - cbn. lia.
  - vm_compute. reflexivity.
Defined.

(** X7: the call that ends an effect (it returns false on a controller that
    had a brightness function) evaluates the function at [period - 1],
    writes that value through the output transform, and clears the
    function; it only happens with a finite repeat count. *)
Theorem Update_finish_trace
    (now : Z) (s s' : TJLed) (tr : list event) (f : BrightnessEvalFunction) :
  brightness_func_ s = Some f ->
  is_u16 (delay_before_ s) ->
  Update now s = Some (false, tr, s') ->
  tr = [Eval (u32 (period_ s - 1));
        Write (port_value s (f (u32 (period_ s - 1)) (period_ s)
                               (effect_param_ s)))]
  /\ brightness_func_ s' = None
  /\ IsForever s = false
  /\ delay_before_ s' = 0.
Proof.
  intros Hf Hd H. pose proof H as Hsplit. apply Update_split in Hsplit.
  pose proof (Update_pre_delay_before now s Hd) as Hnn.
  destruct (Update_pre_fields now s)
    as (Eb & Ee & Efl & En & Ea & Eq & _).
  destruct Hsplit as [(-> & -> & [Hn | Hl])
                     | (_ & _ & [(_ & Hr & _) | (Hz & HR)])].
  - congruence.
  - unfold Update in H. rewrite Hf in H.
    apply Z.eqb_eq in Hl. rewrite Hl in H. discriminate.
  - discriminate.
  - apply Update_run_cases in HR.
    destruct HR as [(Hfe & _ & _ & HE & ->) | (_ & HC)].
    + rewrite (EvalAndWrite_port_value _ _ f) in HE by congruence.
      injection HE as <-. fields.
      unfold port_value, IsInverted, IsLowActive, IsForever, GetFlag in *.
      rewrite Ee, Efl, Eq. rewrite En in Hfe.
      repeat split; try assumption. lia.
    + apply Update_cycle_cases in HC. destruct HC as (_ & Hr & _).
      discriminate.
Qed.

Lemma Update_finish_trace_witness :
  [Eval 999; Write 0]
  = [Eval (u32 (period_ (set_time_start 0
                           (set_last_update_time 500
                              (Blink 500 500 TJLed_new))) - 1));
     Write (port_value
              (set_time_start 0
                 (set_last_update_time 500 (Blink 500 500 TJLed_new)))
              (BlinkFunc
                 (u32 (period_ (set_time_start 0
                                  (set_last_update_time 500
                                     (Blink 500 500 TJLed_new))) - 1))
                 (period_ (set_time_start 0
                             (set_last_update_time 500
                                (Blink 500 500 TJLed_new))))
                 (effect_param_ (set_time_start 0
                                   (set_last_update_time 500
                                      (Blink 500 500 TJLed_new))))))]
  /\ brightness_func_
       (set_brightness_func None
          (set_time_start 0
             (set_last_update_time 1000 (Blink 500 500 TJLed_new)))) = None
  /\ IsForever (set_time_start 0
                  (set_last_update_time 500 (Blink 500 500 TJLed_new)))
     = false
  /\ delay_before_
       (set_brightness_func None
          (set_time_start 0
             (set_last_update_time 1000 (Blink 500 500 TJLed_new)))) = 0.
Proof.
  apply (Update_finish_trace 1000
           (set_time_start 0
              (set_last_update_time 500 (Blink 500 500 TJLed_new)))
           (set_brightness_func None
              (set_time_start 0
                 (set_last_update_time 1000 (Blink 500 500 TJLed_new))))
           [Eval 999; Write 0] BlinkFunc).
  - reflexivity.
  - unfold is_u16. cbn. lia.
  - vm_compute. reflexivity.
Defined.

(** X8: [time_start_] is established once.  A returning [Update] made
    while [last_update_time_] differs from the sentinel [kTimeUndef]
    leaves [time_start_] as it was.  On a controller with an effect set and
    [last_update_time_ = kTimeUndef] (the state after [Init]), a call at a
    time [now] other than [kTimeUndef] sets [time_start_] to
    [(now + delay_before_) mod 2^32] and [last_update_time_] to [now]; a call
    at [now = kTimeUndef] is taken for a duplicate: it writes nothing and
    changes nothing, [time_start_] included. *)
Theorem time_start_established_once
    (now : Z) (s s' : TJLed) (r : bool) (tr : list event) :
  Update now s = Some (r, tr, s') ->
  (last_update_time_ s <> kTimeUndef -> time_start_ s' = time_start_ s)
  /\ (brightness_func_ s <> None ->
      last_update_time_ s = kTimeUndef -> now <> kTimeUndef ->
      time_start_ s' = u32 (now + delay_before_ s)
      /\ last_update_time_ s' = now)
  /\ (last_update_time_ s = kTimeUndef -> now = kTimeUndef ->
      s' = s /\ tr = []).
Proof.
  intros H. apply Update_split in H.
  destruct (Update_pre_fields now s) as (_ & _ & _ & _ & _ & _ & El & Et).
  destruct H as [(-> & -> & Hc) | (_ & Hne & [(_ & _ & _ & ->) | (_ & H)])].
  - split; [reflexivity | split; [| auto]]. intros Hact Hundef Hnow.
    destruct Hc; congruence.
  - rewrite Et, El. split; [| split].
    + intros Hdef. apply Z.eqb_neq in Hdef. rewrite Hdef. reflexivity.
    + intros _ Hundef _. apply Z.eqb_eq in Hundef. rewrite Hundef. auto.
    + intros Hundef Hnow. congruence.
  - apply Update_run_state in H. destruct H as (_ & Hl & _ & Hts & _).
    rewrite Hts, Hl, Et, El. split; [| split].
    + intros Hdef. apply Z.eqb_neq in Hdef. rewrite Hdef. reflexivity.
    + intros _ Hundef _. apply Z.eqb_eq in Hundef. rewrite Hundef. auto.
    + intros Hundef Hnow. congruence.
Qed.

Lemma time_start_established_once_witness :
  (last_update_time_ (DelayBefore 100 (Blink 500 500 TJLed_new))
   <> kTimeUndef ->
   time_start_ (set_delay_before 100
                  (set_time_start 142
                     (set_last_update_time 42
                        (DelayBefore 100 (Blink 500 500 TJLed_new)))))
   = time_start_ (DelayBefore 100 (Blink 500 500 TJLed_new)))
  /\ (time_start_ (set_delay_before 100
                     (set_time_start 142
                        (set_last_update_time 42
                           (DelayBefore 100 (Blink 500 500 TJLed_new)))))
      = u32 (42 + delay_before_ (DelayBefore 100 (Blink 500 500 TJLed_new)))
      /\ last_update_time_
           (set_delay_before 100
              (set_time_start 142
                 (set_last_update_time 42
                    (DelayBefore 100 (Blink 500 500 TJLed_new))))) = 42)
  /\ (last_update_time_ (DelayBefore 100 (Blink 500 500 TJLed_new))
      = kTimeUndef -> 42 = kTimeUndef ->
      set_delay_before 100
        (set_time_start 142
           (set_last_update_time 42
              (DelayBefore 100 (Blink 500 500 TJLed_new))))
      = DelayBefore 100 (Blink 500 500 TJLed_new)
      /\ @nil event = []).
Proof.
  destruct (time_start_established_once 42
              (DelayBefore 100 (Blink 500 500 TJLed_new))
              (set_delay_before 100
                 (set_time_start 142
                    (set_last_update_time 42
                       (DelayBefore 100 (Blink 500 500 TJLed_new)))))
              true []) as (H1 & H2 & H3).
  - vm_compute. reflexivity.
  - split; [exact H1 | split; [| exact H3]].
    apply H2.
    + discriminate.
    + reflexivity.
    + vm_compute. discriminate.
Defined.

(** X9: [Update] keeps every field within its C++ type: called at a 32-bit
    time on a state whose fields are in range, it returns a state whose
    fields are in range. *)
Theorem Update_well_typed
    (now : Z) (s s' : TJLed) (r : bool) (tr : list event) :
  well_typed s -> is_u32 now ->
  Update now s = Some (r, tr, s') ->
  well_typed s'.
Proof.
  intros Hwt Hnow H. pose proof Hwt as (Hfl & Hn & Hl & Hd & Ha & Ht & Hp).
  pose proof (Update_pre_delay_before now s Hd) as Hdec.
  destruct (Update_pre_fields now s)
    as (_ & _ & Efl & En & Ea & Eq & El & Et).
  assert (Hpre : well_typed (Update_pre now s)).
  { unfold well_typed. rewrite Efl, En, Ea, Eq, El, Et.
    repeat (split; [assumption |]).
    split; [| split; [assumption | split; [| assumption]]].
    - unfold is_u16 in *. lia.
    - destruct (last_update_time_ s =? kTimeUndef); [| assumption].
      unfold is_u32, u32. apply Z.mod_pos_bound. reflexivity. }
  apply Update_split in H.
  destruct H as [(-> & _) | (_ & _ & [(_ & _ & _ & ->) | (_ & H)])];
    [assumption | assumption |].
  apply Update_run_state in H.
  destruct H as ((_ & Hn' & Ha' & Hp' & _) & Hl' & Hd' & Ht' & Hfl' & _).
  destruct Hpre as (Pfl & Pn & Pl & Pd & Pa & Pt & Pp).
  unfold well_typed. rewrite Hn', Ha', Hp', Hl', Hd', Ht'.
  split; [apply Hfl'; assumption |].
  repeat (split; [assumption |]). assumption.
Qed.

Lemma Update_well_typed_witness :
  well_typed
    (SetInDelayAfterPhase false
       (set_time_start 250
          (set_last_update_time 250 (Blink 500 500 TJLed_new)))).
Proof.
  apply (Update_well_typed 250 (Blink 500 500 TJLed_new) _
           true [Eval 0; Write 255]).
  - vm_compute. repeat split; try reflexivity; discriminate.
  - unfold is_u32. lia.
  - vm_compute. reflexivity.
Defined.

(** ** The active phase and the hold phase *)

Lemma Update_pre_steady (now : Z) (s : TJLed) :
  last_update_time_ s <> kTimeUndef -> delay_before_ s = 0 ->
  Update_pre now s = set_last_update_time now s.
Proof.
  intros Hdef Hd. unfold Update_pre.
  apply Z.eqb_neq in Hdef. rewrite Hdef. fields. rewrite Hd. reflexivity.
Qed.

Lemma port_value_ext (s1 s2 : TJLed) (raw : Z) :
  IsInverted s1 = IsInverted s2 -> IsLowActive s1 = IsLowActive s2 ->
  port_value s1 raw = port_value s2 raw.
Proof. intros Hi Hl. unfold port_value. rewrite Hi, Hl. reflexivity. Qed.

Lemma EvalAndWrite_after_marker
    (t : Z) (v : bool) (s : TJLed) (f : BrightnessEvalFunction) :
  brightness_func_ s = Some f ->
  EvalAndWrite t (SetInDelayAfterPhase v s)
  = Some [Eval t; Write (port_value s (f t (period_ s) (effect_param_ s)))].
Proof.
  intros Hf.
  destruct (SetInDelayAfterPhase_fields v s) as (Hb & He & _ & _ & _ & _ & _ & Hp).
  destruct (SetInDelayAfterPhase_flags v s) as (_ & Hi & Hl).
  rewrite (EvalAndWrite_port_value t _ f) by congruence.
  rewrite He, Hp. rewrite (port_value_ext _ s _ Hi Hl). reflexivity.
Qed.

Section SteadyState.

(** A running effect past its delay, called at a new time before its end. *)
Variables (now : Z) (s : TJLed) (f : BrightnessEvalFunction).
Hypothesis Hf : brightness_func_ s = Some f.
Hypothesis Hnew : last_update_time_ s <> now.
Hypothesis Hdef : last_update_time_ s <> kTimeUndef.
Hypothesis Hdelay : delay_before_ s = 0.
Hypothesis Hgoing : IsForever s = true \/ now < time_end s.
Hypothesis Hdiv : period_ s + delay_after_ s <> 0.

Lemma Update_steady :
  Update now s = Update_cycle now (set_last_update_time now s).
Proof.
  rewrite (Update_unfold now s f Hf Hnew).
  rewrite (Update_pre_steady now s Hdef Hdelay). fields. rewrite Hdelay.
  cbn [Z.ltb Z.compare]. unfold Update_run.
  change (IsForever (set_last_update_time now s)) with (IsForever s).
  change (time_end (set_last_update_time now s)) with (time_end s).
  destruct Hgoing as [-> | Hlt]; [reflexivity |].
  apply Z.leb_gt in Hlt. rewrite Hlt, andb_false_r. reflexivity.
Qed.

(** X10: the active phase.  Take a controller with an effect set, whose
    [last_update_time_] is neither [now] (a new tick) nor the sentinel
    [kTimeUndef], whose [delay_before_] is 0, which repeats forever or has
    [now < time_end], and whose [period_ + delay_after_] is not 0.  If the
    position [t = (now - time_start_) mod (period_ + delay_after_)] is below
    [period_], [Update] calls the brightness function at [t], writes its
    value through the output transform, clears the delay-phase marker,
    records [now] and returns true. *)
Theorem Update_active_phase :
  phase now s < period_ s ->
  Update now s
  = Some (true,
          [Eval (phase now s);
           Write (port_value s (f (phase now s) (period_ s)
                                  (effect_param_ s)))],
          SetInDelayAfterPhase false (set_last_update_time now s)).
Proof.
  intros Hlt. rewrite Update_steady. unfold Update_cycle.
  change (phase now s) with (phase now (set_last_update_time now s)) in Hlt.
  fold (phase now (set_last_update_time now s)). fields.
  apply Z.eqb_neq in Hdiv. rewrite Hdiv.
  apply Z.ltb_lt in Hlt. fields. rewrite Hlt.
  rewrite (EvalAndWrite_after_marker _ false _ f) by exact Hf.
  reflexivity.
Qed.

(** X11: the hold phase.  Take a controller with an effect set, whose
    [last_update_time_] is neither [now] (a new tick) nor the sentinel
    [kTimeUndef], whose [delay_before_] is 0, which repeats forever or has
    [now < time_end], and whose [period_ + delay_after_] is not 0.  If the
    position [t = (now - time_start_) mod (period_ + delay_after_)] is at or
    beyond [period_]: with the delay-phase marker clear, [Update] sets the
    marker and writes the value of the brightness function at [period - 1]
    once; with the marker set, it writes nothing and only records [now].
    Either way it returns true and the marker is set afterwards. *)
Theorem Update_hold_phase :
  period_ s <= phase now s ->
  (IsInDelayAfterPhase s = false ->
   Update now s
   = Some (true,
           [Eval (u32 (period_ s - 1));
            Write (port_value s (f (u32 (period_ s - 1)) (period_ s)
                                   (effect_param_ s)))],
           SetInDelayAfterPhase true (set_last_update_time now s))
   /\ IsInDelayAfterPhase
        (SetInDelayAfterPhase true (set_last_update_time now s)) = true)
  /\ (IsInDelayAfterPhase s = true ->
      Update now s = Some (true, [], set_last_update_time now s)).
Proof.
  intros Hge. rewrite Update_steady. unfold Update_cycle.
  change (phase now s) with (phase now (set_last_update_time now s)) in Hge.
  fold (phase now (set_last_update_time now s)). fields.
  apply Z.eqb_neq in Hdiv. rewrite Hdiv.
  apply Z.ltb_ge in Hge. fields. rewrite Hge.
  change (IsInDelayAfterPhase (set_last_update_time now s))
    with (IsInDelayAfterPhase s).
  split; intros Hm; rewrite Hm; cbn [negb].
  - rewrite (EvalAndWrite_after_marker _ true _ f) by exact Hf.
    split; [reflexivity |].
    apply (SetInDelayAfterPhase_flags true).
  - reflexivity.
Qed.

End SteadyState.

Lemma Update_active_phase_witness :
  Update 1650
    (set_time_start 1000
       (set_last_update_time 1400
          (Forever (DelayAfter 100 (Blink 300 200 TJLed_new)))))
  = Some (true, [Eval 50; Write 255],
          SetInDelayAfterPhase false
            (set_last_update_time 1650
               (set_time_start 1000
                  (set_last_update_time 1400
                     (Forever (DelayAfter 100 (Blink 300 200 TJLed_new))))))).
Proof.
  apply (Update_active_phase 1650
           (set_time_start 1000
              (set_last_update_time 1400
                 (Forever (DelayAfter 100 (Blink 300 200 TJLed_new)))))
           BlinkFunc).
  - reflexivity.
  - vm_compute. discriminate.
  - vm_compute. discriminate.
  - reflexivity.
  - left. reflexivity.
  - vm_compute. discriminate.
  - vm_compute. reflexivity.
Defined.

Lemma Update_hold_phase_witness :
  (IsInDelayAfterPhase
     (set_time_start 1000
        (set_last_update_time 1400
           (Forever (DelayAfter 100 (Blink 300 200 TJLed_new))))) = false ->
   Update 1550
     (set_time_start 1000
        (set_last_update_time 1400
           (Forever (DelayAfter 100 (Blink 300 200 TJLed_new)))))
   = Some (true, [Eval 499; Write 0],
           SetInDelayAfterPhase true
             (set_last_update_time 1550
                (set_time_start 1000
                   (set_last_update_time 1400
                      (Forever (DelayAfter 100 (Blink 300 200 TJLed_new)))))))
   /\ IsInDelayAfterPhase
        (SetInDelayAfterPhase true
           (set_last_update_time 1550
              (set_time_start 1000
                 (set_last_update_time 1400
                    (Forever (DelayAfter 100 (Blink 300 200 TJLed_new)))))))
      = true)
  /\ (IsInDelayAfterPhase
        (set_time_start 1000
           (set_last_update_time 1400
              (Forever (DelayAfter 100 (Blink 300 200 TJLed_new))))) = true ->
      Update 1550
        (set_time_start 1000
           (set_last_update_time 1400
              (Forever (DelayAfter 100 (Blink 300 200 TJLed_new)))))
      = Some (true, [],
              set_last_update_time 1550
                (set_time_start 1000
                   (set_last_update_time 1400
                      (Forever (DelayAfter 100 (Blink 300 200 TJLed_new))))))).
Proof.
  apply (Update_hold_phase 1550
           (set_time_start 1000
              (set_last_update_time 1400
                 (Forever (DelayAfter 100 (Blink 300 200 TJLed_new)))))
           BlinkFunc).
  - reflexivity.
  - vm_compute. discriminate.
  - vm_compute. discriminate.
  - reflexivity.
  - left. reflexivity.
  - vm_compute. discriminate.
  - vm_compute. discriminate.
Defined.

(** ** The brightness functions *)

(** [FadeOnFunc] is non-decreasing up to and including [t = period]. *)
Lemma FadeOnFunc_mono_le (period param1 param2 t1 t2 : Z) :
  1 <= period <= 65535 -> 0 <= t1 -> t1 <= t2 -> t2 <= period ->
  FadeOnFunc t1 period param1 <= FadeOnFunc t2 period param2.
Proof.
  intros Hp H1 H12 H2.
  destruct (Z_lt_le_dec (t2 + 1) period) as [Hin | Hlast].
  - rewrite !FadeOnFunc_inner by lia.
    apply fade_interp_mono.
    + apply Z.div_pos; lia.
    + apply Z.div_le_mono; lia.
    + assert ((t2 * 256) / period < 256)
        by (apply Z.div_lt_upper_bound; lia).
      lia.
  - rewrite (FadeOnFunc_last t2).
    + apply FadeOnFunc_range.
    + rewrite u32_small by (change (2 ^ 32) with 4294967296; lia). exact Hlast.
Qed.

Lemma FadeOffFunc_mono_le (period param1 param2 t1 t2 : Z) :
  1 <= period <= 65535 -> 0 <= t1 -> t1 <= t2 -> t2 <= period ->
  FadeOffFunc t2 period param2 <= FadeOffFunc t1 period param1.
Proof.
  intros Hp H1 H12 H2. unfold FadeOffFunc.
  rewrite !u32_small by (change (2 ^ 32) with 4294967296; lia).
  apply FadeOnFunc_mono_le; lia.
Qed.

Lemma FadeOffFunc_start (period param : Z) :
  0 <= period <= 65535 -> FadeOffFunc 0 period param = 255.
Proof.
  intros Hp. unfold FadeOffFunc. apply FadeOnFunc_last.
  rewrite Z.sub_0_r.
  rewrite !u32_small by (change (2 ^ 32) with 4294967296;
                         try rewrite u32_small; change (2 ^ 32) with 4294967296; lia).
  lia.
Qed.

(** X12: the fade-off function starts at 255, is non-increasing in time
    over one period and returns a byte. *)
Theorem FadeOffFunc_fades (period param t1 t2 : Z) :
  1 <= period <= 65535 -> 0 <= t1 -> t1 <= t2 -> t2 < period ->
  FadeOffFunc 0 period param = 255
  /\ FadeOffFunc t2 period param <= FadeOffFunc t1 period param
  /\ 0 <= FadeOffFunc t2 period param <= 255.
Proof.
  intros Hp H1 H12 H2. split; [| split].
  - apply FadeOffFunc_start. lia.
  - apply FadeOffFunc_mono_le; lia.
  - apply FadeOnFunc_range.
Qed.

Lemma FadeOffFunc_fades_witness :
  FadeOffFunc 0 10 0 = 255
  /\ FadeOffFunc 7 10 0 <= FadeOffFunc 3 10 0
  /\ 0 <= FadeOffFunc 7 10 0 <= 255.
Proof. apply (FadeOffFunc_fades 10 0 3 7); lia. Defined.

(** X13: over a grid of eight equal steps the fade-on function passes
    through the samples of [kFadeOnTable]: for a period [8 * m] with
    [m >= 2], its value at [t = k * m] is the [k]-th table entry. *)
Theorem FadeOnFunc_table_samples (m k param : Z) :
  2 <= m -> 8 * m <= 65535 -> 0 <= k <= 7 ->
  FadeOnFunc (k * m) (8 * m) param = table_at k.
Proof.
  intros Hm Hp Hk.
  rewrite FadeOnFunc_inner by nia.
  replace (k * m * 256) with (32 * k * (8 * m)) by lia.
  rewrite Z.div_mul by lia.
  assert (Hall : all_below 8 (fun k => fade_interp (32 * k) =? table_at k)
                 = true) by (vm_compute; reflexivity).
  apply Z.eqb_eq. apply (all_below_spec _ 8 Hall). simpl Z.of_nat. lia.
Qed.

Lemma FadeOnFunc_table_samples_witness :
  FadeOnFunc (5 * 125) (8 * 125) 0 = table_at 5 /\ table_at 5 = 118.
Proof.
  split; [apply (FadeOnFunc_table_samples 125 5 0); lia | reflexivity].
Defined.

Lemma BreatheFunc_range (t period param : Z) :
  0 <= BreatheFunc t period param <= 255.
Proof.
  unfold BreatheFunc. destruct (period <=? u32 (t + 1)).
  - unfold kZeroBrightness. lia.
  - destruct (t <? _); apply FadeOnFunc_range.
Qed.

Lemma BreatheFunc_rising (t period param : Z) :
  2 <= period <= 65535 -> 0 <= t < period / 2 ->
  BreatheFunc t period param = FadeOnFunc t (period / 2) 0.
Proof.
  intros Hp Ht. unfold BreatheFunc.
  assert (Hh : period / 2 < period) by (apply Z.div_lt; lia).
  rewrite Z.shiftr_div_pow2 by lia. change (2 ^ 1) with 2.
  rewrite (u16_small (period / 2)) by (change (2 ^ 16) with 65536; lia).
  rewrite u32_small by (change (2 ^ 32) with 4294967296; lia).
  assert (E1 : (period <=? t + 1) = false) by (apply Z.leb_gt; lia).
  assert (E2 : (t <? period / 2) = true) by (apply Z.ltb_lt; lia).
  rewrite E1, E2. reflexivity.
Qed.

Lemma BreatheFunc_falling (t period param : Z) :
  2 <= period <= 65535 -> period / 2 <= t -> t + 1 < period ->
  BreatheFunc t period param = FadeOffFunc (t - period / 2) (period / 2) 0.
Proof.
  intros Hp Ht Hlt. unfold BreatheFunc.
  rewrite Z.shiftr_div_pow2 by lia. change (2 ^ 1) with 2.
  assert (Hh : 0 <= period / 2) by (apply Z.div_pos; lia).
  assert (Hh2 : period / 2 < period) by (apply Z.div_lt; lia).
  rewrite (u16_small (period / 2)) by (change (2 ^ 16) with 65536; lia).
  rewrite !u32_small by (change (2 ^ 32) with 4294967296; lia).
  assert (E1 : (period <=? t + 1) = false) by (apply Z.leb_gt; lia).
  assert (E2 : (t <? period / 2) = false) by (apply Z.ltb_ge; lia).
  rewrite E1, E2. reflexivity.
Qed.

Lemma BreatheFunc_last (t period param : Z) :
  0 <= t -> period <= t + 1 -> t < 2 ^ 32 - 1 ->
  BreatheFunc t period param = 0.
Proof.
  intros H0 Ht Hmax. unfold BreatheFunc.
  rewrite u32_small by lia.
  assert (E : (period <=? t + 1) = true) by (apply Z.leb_le; lia).
  rewrite E. reflexivity.
Qed.

(** X14: the breathe function rises over the first half of its period,
    is at 255 at the midpoint [period / 2], falls over the second half and
    ends at 0 on the last tick; it always returns a byte. *)
Theorem BreatheFunc_shape (period param t1 t2 : Z) :
  3 <= period <= 65535 -> 0 <= t1 -> t1 <= t2 -> t2 < period ->
  (t2 < period / 2 ->
   BreatheFunc t1 period param <= BreatheFunc t2 period param)
  /\ (period / 2 <= t1 ->
      BreatheFunc t2 period param <= BreatheFunc t1 period param)
  /\ BreatheFunc (period / 2) period param = 255
  /\ BreatheFunc (period - 1) period param = 0
  /\ 0 <= BreatheFunc t1 period param <= 255.
Proof.
  intros Hp H1 H12 H2.
  assert (Hh : 2 * (period / 2) <= period < 2 * (period / 2) + 2).
  { pose proof (Z.div_mod period 2 ltac:(lia)).
    pose proof (Z.mod_pos_bound period 2 ltac:(lia)). lia. }
  split; [| split; [| split; [| split]]].
  - intros Hfirst. rewrite !BreatheFunc_rising by lia.
    apply FadeOnFunc_mono_le; lia.
  - intros Hsecond.
    destruct (Z_lt_le_dec (t2 + 1) period) as [Hin | Hend].
    + rewrite !BreatheFunc_falling by lia.
      apply FadeOffFunc_mono_le; lia.
    + rewrite (BreatheFunc_last t2) by (change (2 ^ 32) with 4294967296; lia).
      apply BreatheFunc_range.
  - rewrite BreatheFunc_falling by lia.
    rewrite Z.sub_diag. apply FadeOffFunc_start. lia.
  - apply BreatheFunc_last; change (2 ^ 32) with 4294967296; lia.
  - apply BreatheFunc_range.
Qed.

Lemma BreatheFunc_shape_witness :
  (7 < 20 / 2 -> BreatheFunc 3 20 0 <= BreatheFunc 7 20 0)
  /\ (20 / 2 <= 3 -> BreatheFunc 7 20 0 <= BreatheFunc 3 20 0)
  /\ BreatheFunc (20 / 2) 20 0 = 255
  /\ BreatheFunc (20 - 1) 20 0 = 0
  /\ 0 <= BreatheFunc 3 20 0 <= 255.
Proof. apply (BreatheFunc_shape 20 0 3 7); lia. Defined.

(** X15: when the two durations of [Blink] add up to more than 65535, the
    16-bit period wraps to a value below the on-time, so the blink function
    is on over the whole active phase. *)
Theorem Blink_period_wraps (duration_on duration_off t : Z) (s : TJLed) :
  is_u16 duration_on -> is_u16 duration_off ->
  65536 <= duration_on + duration_off ->
  period_ (Blink duration_on duration_off s)
  = duration_on + duration_off - 65536
  /\ period_ (Blink duration_on duration_off s) < duration_on
  /\ (t < period_ (Blink duration_on duration_off s) ->
      BlinkFunc t (period_ (Blink duration_on duration_off s))
                (effect_param_ (Blink duration_on duration_off s)) = 255).
Proof.
  unfold is_u16. change (2 ^ 16) with 65536. intros Hon Hoff Hsum.
  assert (Hper : period_ (Blink duration_on duration_off s)
                 = duration_on + duration_off - 65536).
  { unfold Blink, Init. fields. unfold u16. change (2 ^ 16) with 65536.
    symmetry. apply (Z.mod_unique_pos _ _ 1); lia. }
  rewrite Hper. split; [reflexivity | split; [lia |]].
  intros Ht. unfold Blink, Init, BlinkFunc. fields.
  assert (E : (t <? duration_on) = true) by (apply Z.ltb_lt; lia).
  rewrite E. reflexivity.
Qed.

Lemma Blink_period_wraps_witness :
  period_ (Blink 40000 40000 TJLed_new) = 40000 + 40000 - 65536
  /\ period_ (Blink 40000 40000 TJLed_new) < 40000
  /\ (14000 < period_ (Blink 40000 40000 TJLed_new) ->
      BlinkFunc 14000 (period_ (Blink 40000 40000 TJLed_new))
                (effect_param_ (Blink 40000 40000 TJLed_new)) = 255).
Proof.
  apply (Blink_period_wraps 40000 40000 14000 TJLed_new);
    unfold is_u16; lia.
Defined.

(** ** Stop *)

(** X16: after [Stop], every [Update] of every call pattern returns false,
    calls no brightness function, writes nothing and leaves the state as
    [Stop] left it. *)
Theorem Stop_then_idle (ts : list Z) (s : TJLed) :
  run ts (snd (Stop s))
  = Some (map (fun _ => (false, [])) ts, snd (Stop s)).
Proof. apply run_idle. reflexivity. Qed.

(** ** Shifting the clock *)

Lemma u32_shift_sub (a b d : Z) : u32 (u32 (a + d) - u32 (b + d)) = u32 (a - b).
Proof.
  unfold u32. rewrite <- Zminus_mod. f_equal. lia.
Qed.

Lemma u32_shift_add (a b d : Z) : u32 (u32 (a + d) + b) = u32 (u32 (a + b) + d).
Proof.
  unfold u32. rewrite !Zplus_mod_idemp_l. f_equal. lia.
Qed.

Lemma u32_shift_inj (a b d : Z) :
  is_u32 a -> is_u32 b -> u32 (a + d) = u32 (b + d) -> a = b.
Proof.
  unfold is_u32. change (2 ^ 32) with 4294967296. intros Ha Hb H.
  assert (H0 : u32 (a - b) = 0).
  { rewrite <- (u32_shift_sub a b d), H, Z.sub_diag. reflexivity. }
  unfold u32 in H0. change (2 ^ 32) with 4294967296 in H0.
  apply Z.mod_divide in H0; [| lia].
  destruct H0 as [k Hk]. lia.
Qed.

Lemma phase_shift (now d : Z) (s : TJLed) :
  phase (u32 (now + d)) (shift_state d s) = phase now s.
Proof.
  unfold phase, shift_state. fields. rewrite u32_shift_sub. reflexivity.
Qed.

Lemma SetInDelayAfterPhase_shift (v : bool) (d : Z) (s : TJLed) :
  SetInDelayAfterPhase v (shift_state d s)
  = shift_state d (SetInDelayAfterPhase v s).
Proof.
  unfold SetInDelayAfterPhase, SetFlags. destruct v; reflexivity.
Qed.

Lemma Update_cycle_shift (now d : Z) (s : TJLed) :
  Update_cycle (u32 (now + d)) (shift_state d s)
  = shift_result d (Update_cycle now s).
Proof.
  unfold Update_cycle.
  fold (phase (u32 (now + d)) (shift_state d s)). fold (phase now s).
  rewrite phase_shift.
  change (period_ (shift_state d s)) with (period_ s).
  change (delay_after_ (shift_state d s)) with (delay_after_ s).
  change (IsInDelayAfterPhase (shift_state d s))
    with (IsInDelayAfterPhase s).
  destruct (period_ s + delay_after_ s =? 0); [reflexivity |].
  destruct (phase now s <? period_ s).
  - rewrite SetInDelayAfterPhase_shift.
    change (EvalAndWrite (phase now s)
              (shift_state d (SetInDelayAfterPhase false s)))
      with (EvalAndWrite (phase now s) (SetInDelayAfterPhase false s)).
    destruct (EvalAndWrite _ _); reflexivity.
  - destruct (negb (IsInDelayAfterPhase s)); [| reflexivity].
    rewrite SetInDelayAfterPhase_shift.
    change (EvalAndWrite
              (u32 (period_ (shift_state d (SetInDelayAfterPhase true s)) - 1))
              (shift_state d (SetInDelayAfterPhase true s)))
      with (EvalAndWrite (u32 (period_ (SetInDelayAfterPhase true s) - 1))
              (SetInDelayAfterPhase true s)).
    destruct (EvalAndWrite _ _); reflexivity.
Qed.

(** The part of [Update] after the bookkeeping, for a forever effect. *)
Lemma Update_tail_shift (now d : Z) (s3 : TJLed) :
  IsForever s3 = true ->
  (if 0 <? delay_before_ (shift_state d s3)
   then Some (true, [], shift_state d s3)
   else Update_run (u32 (now + d)) (shift_state d s3))
  = shift_result d
      (if 0 <? delay_before_ s3 then Some (true, [], s3)
       else Update_run now s3).
Proof.
  intros Hfe.
  change (delay_before_ (shift_state d s3)) with (delay_before_ s3).
  destruct (0 <? delay_before_ s3); [reflexivity |].
  unfold Update_run.
  change (IsForever (shift_state d s3)) with (IsForever s3).
  rewrite Hfe. cbn [negb andb]. apply Update_cycle_shift.
Qed.

Lemma Update_pre_shift (now d : Z) (s : TJLed) :
  last_update_time_ s <> kTimeUndef ->
  u32 (last_update_time_ s + d) <> kTimeUndef ->
  Update_pre (u32 (now + d)) (shift_state d s)
  = shift_state d (Update_pre now s).
Proof.
  intros H1 H2. unfold Update_pre, shift_state. fields.
  apply Z.eqb_neq in H1, H2. rewrite H1, H2. fields.
  rewrite u32_shift_sub.
  destruct (0 <? delay_before_ s); reflexivity.
Qed.

Lemma Update_pre_shift_fresh (now d : Z) (s : TJLed) :
  last_update_time_ s = kTimeUndef ->
  Update_pre (u32 (now + d)) s = shift_state d (Update_pre now s).
Proof.
  intros H. unfold Update_pre, shift_state.
  rewrite H, Z.eqb_refl. fields. rewrite !Z.sub_diag.
  rewrite (u32_shift_add now (delay_before_ s) d).
  destruct (0 <? delay_before_ s); reflexivity.
Qed.

(** One call on a state already in use. *)
Lemma Update_shift (now d : Z) (s : TJLed) :
  IsForever s = true ->
  is_u32 now -> is_u32 (last_update_time_ s) ->
  last_update_time_ s <> kTimeUndef ->
  u32 (last_update_time_ s + d) <> kTimeUndef ->
  Update (u32 (now + d)) (shift_state d s) = shift_result d (Update now s).
Proof.
  intros Hfe Hnow Hl H1 H2.
  destruct (brightness_func_ s) as [f|] eqn:Hf.
  2:{ rewrite !Update_idle by exact Hf. reflexivity. }
  destruct (Z.eq_dec (last_update_time_ s) now) as [Heq | Hne].
  - unfold Update.
    change (brightness_func_ (shift_state d s)) with (brightness_func_ s).
    change (last_update_time_ (shift_state d s))
      with (u32 (last_update_time_ s + d)).
    rewrite Hf, Heq, !Z.eqb_refl. reflexivity.
  - rewrite (Update_unfold now s f Hf Hne).
    rewrite (Update_unfold (u32 (now + d)) (shift_state d s) f Hf).
    + rewrite (Update_pre_shift now d s H1 H2).
      apply Update_tail_shift.
      destruct (Update_pre_fields now s) as (_ & _ & _ & En & _).
      unfold IsForever in *. rewrite En. exact Hfe.
    + change (last_update_time_ (shift_state d s))
        with (u32 (last_update_time_ s + d)).
      intros E. apply Hne. apply (u32_shift_inj _ _ d Hl Hnow E).
Qed.

(** The first call after [Init]. *)
Lemma Update_shift_fresh
    (now d : Z) (s : TJLed) (f : BrightnessEvalFunction) :
  brightness_func_ s = Some f ->
  IsForever s = true ->
  last_update_time_ s = kTimeUndef ->
  now <> kTimeUndef -> u32 (now + d) <> kTimeUndef ->
  Update (u32 (now + d)) s = shift_result d (Update now s).
Proof.
  intros Hf Hfe Hl H1 H2.
  rewrite (Update_unfold now s f Hf) by congruence.
  rewrite (Update_unfold (u32 (now + d)) s f Hf) by congruence.
  rewrite (Update_pre_shift_fresh now d s Hl).
  apply Update_tail_shift.
  destruct (Update_pre_fields now s) as (_ & _ & _ & En & _).
  unfold IsForever in *. rewrite En. exact Hfe.
Qed.

Lemma Update_shifted
    (now d : Z) (s1 s2 : TJLed) (f : BrightnessEvalFunction) :
  brightness_func_ s1 = Some f -> IsForever s1 = true ->
  shifted d s1 s2 -> clear_of_sentinel d now ->
  match Update now s1 with
  | Some (r, tr, s1') =>
      exists s2', Update (u32 (now + d)) s2 = Some (r, tr, s2')
                  /\ shifted d s1' s2'
                  /\ brightness_func_ s1' = Some f /\ IsForever s1' = true
  | None => Update (u32 (now + d)) s2 = None
  end.
Proof.
  intros Hf Hfe Hrel (Hnow & Hn1 & Hn2).
  assert (Hact : brightness_func_ s1 <> None) by congruence.
  assert (HU : Update (u32 (now + d)) s2 = shift_result d (Update now s1)).
  { destruct Hrel as [(-> & Hl & Hl1 & Hl2) | (-> & Hl)].
    - apply Update_shift; assumption.
    - apply (Update_shift_fresh now d s1 f); assumption. }
  destruct (Update now s1) as [[[r tr] s1']|] eqn:H1; [| exact HU].
  exists (shift_state d s1'). split; [exact HU |].
  destruct (Update_forever_inv now s1 s1' r tr Hact Hfe H1)
    as (_ & Hb & Hfe' & _).
  split; [| split; [congruence | exact Hfe']].
  apply Update_cases in H1.
  destruct H1 as [Hidle | _ Hdup | tr s1' _ _ _ Hl' _ _ _ | tr s1' _ _ Hnone _].
  - congruence.
  - left. rewrite Hdup. auto.
  - left. rewrite Hl'. auto.
  - congruence.
Qed.

Lemma run_shifted
    (d : Z) (f : BrightnessEvalFunction) (ts : list Z) (s1 s2 : TJLed) :
  brightness_func_ s1 = Some f -> IsForever s1 = true ->
  shifted d s1 s2 -> Forall (clear_of_sentinel d) ts ->
  observe (run (shift_times d ts) s2) = observe (run ts s1).
Proof.
  revert s1 s2. induction ts as [|now ts IH]; intros s1 s2 Hf Hfe Hrel Hall.
  - reflexivity.
  - inversion Hall as [|? ? Hnow Hall']; subst.
    pose proof (Update_shifted now d s1 s2 f Hf Hfe Hrel Hnow) as Hstep.
    cbn [shift_times map run]. fold (shift_times d ts).
    destruct (Update now s1) as [[[r tr] s1']|].
    + destruct Hstep as (s2' & -> & Hrel' & Hf' & Hfe').
      specialize (IH s1' s2' Hf' Hfe' Hrel' Hall').
      destruct (run (shift_times d ts) s2') as [[o2 e2]|];
        destruct (run ts s1') as [[o1 e1]|];
        cbn [observe map fst snd] in *; try discriminate; try reflexivity.
      injection IH as ->. reflexivity.
    + rewrite Hstep. reflexivity.
Qed.

(** X17: in forever mode the controller tolerates the wrap of the clock.
    For an effect set to repeat forever and not yet updated, a call pattern
    and the same pattern shifted by any [d] modulo 2^32 produce the same
    return values and the same writes, as long as no call time of either
    pattern is the sentinel [kTimeUndef = 2^32 - 1]. *)
Theorem forever_shift_invariant (d : Z) (ts : list Z) (s : TJLed) :
  IsForever s = true ->
  last_update_time_ s = kTimeUndef ->
  Forall (clear_of_sentinel d) ts ->
  observe (run (shift_times d ts) s) = observe (run ts s).
Proof.
  intros Hfe Hl Hall.
  destruct (brightness_func_ s) as [f|] eqn:Hf.
  - apply (run_shifted d f); try assumption. right. auto.
  - rewrite !run_idle by exact Hf. unfold shift_times.
    cbn [observe]. rewrite !map_map. reflexivity.
Qed.

Lemma forever_shift_invariant_witness :
  observe (run (shift_times 4294967000 [0; 250; 500; 1100; 2000])
               (Forever (DelayAfter 100 (Blink 500 500 TJLed_new))))
  = observe (run [0; 250; 500; 1100; 2000]
                 (Forever (DelayAfter 100 (Blink 500 500 TJLed_new))))
  /\ shift_times 4294967000 [0; 250; 500; 1100; 2000]
     = [4294967000; 4294967250; 204; 804; 1704].
Proof.
  split; [| reflexivity].
  apply (forever_shift_invariant 4294967000 [0; 250; 500; 1100; 2000]
           (Forever (DelayAfter 100 (Blink 500 500 TJLed_new)))).
  - reflexivity.
  - reflexivity.
  - repeat constructor; vm_compute; try reflexivity; discriminate.
Defined.

(** ** The return value *)

(** X18: the return value of [Update] tells whether an effect is set after
    the call: true exactly when [brightness_func_] is not null.  On an idle
    controller the call changes nothing and writes nothing. *)
Theorem Update_returns_liveness
    (now : Z) (s s' : TJLed) (r : bool) (tr : list event) :
  Update now s = Some (r, tr, s') ->
  (r = true <-> brightness_func_ s' <> None)
  /\ (brightness_func_ s = None -> r = false /\ tr = [] /\ s' = s).
Proof.
  intros H. apply Update_cases in H.
  destruct H as [Hidle | Hact _ | tr s' Hact _ Hb _ _ _ _
                 | tr s' Hact _ Hnone _].
  - split; [| auto]. split; [discriminate | congruence].
  - split; [| congruence]. split; auto.
  - split; [| congruence]. split; [congruence | reflexivity].
  - split; [| congruence]. split; [discriminate | congruence].
Qed.

Lemma Update_returns_liveness_witness :
  (false = true
   <-> brightness_func_
         (set_brightness_func None
            (set_time_start 0
               (set_last_update_time 1000 (Blink 500 500 TJLed_new))))
       <> None)
  /\ (brightness_func_
        (set_time_start 0
           (set_last_update_time 500 (Blink 500 500 TJLed_new))) = None ->
      false = false /\ [Eval 999; Write 0] = []
      /\ set_brightness_func None
           (set_time_start 0
              (set_last_update_time 1000 (Blink 500 500 TJLed_new)))
         = set_time_start 0
             (set_last_update_time 500 (Blink 500 500 TJLed_new))).
Proof.
  apply (Update_returns_liveness 1000
           (set_time_start 0
              (set_last_update_time 500 (Blink 500 500 TJLed_new)))).
  vm_compute. reflexivity.
Defined.

(** ** The delay before, over a call pattern *)

Lemma last_cons (a d : Z) (l : list Z) : last (a :: l) d = last l a.
Proof.
  revert a d. induction l as [|b l IH]; intros a d; [reflexivity |].
  change (last (a :: b :: l) d) with (last (b :: l) d).
  rewrite (IH b d), (IH b a). reflexivity.
Qed.

Section DelayBefore.

Variable f : BrightnessEvalFunction.
Variables db t0 : Z.
Hypothesis Hrange : 0 <= t0 /\ t0 + db < 2 ^ 32 - 1.
Hypothesis Hdb16 : is_u16 db.

Lemma Update_waiting_first (s : TJLed) :
  brightness_func_ s = Some f ->
  last_update_time_ s = kTimeUndef ->
  delay_before_ s = db -> 0 < db ->
  exists s', Update t0 s = Some (true, [], s') /\ Waiting f db t0 t0 s'.
Proof.
  intros Hf Hl Hd Hpos. unfold is_u16 in Hdb16.
  change (2 ^ 16) with 65536 in Hdb16.
  change (2 ^ 32) with 4294967296 in Hrange.
  unfold Update. rewrite Hf, Hl.
  assert (Hne : (kTimeUndef =? t0) = false)
    by (apply Z.eqb_neq; unfold kTimeUndef; lia).
  rewrite Hne, Z.eqb_refl. fields. rewrite Hd, Z.sub_diag.
  change (u32 0) with 0. rewrite Z.sub_0_r, Z.max_r by lia.
  rewrite (u16_small db) by (change (2 ^ 16) with 65536; lia).
  rewrite (u32_small (t0 + db)) by (change (2 ^ 32) with 4294967296; lia).
  assert (E : (0 <? db) = true) by (apply Z.ltb_lt; lia).
  rewrite E. eexists. split; [reflexivity |].
  unfold Waiting. fields. repeat split; try assumption; lia.
Qed.

Lemma Update_waiting_next (tl now : Z) (s : TJLed) :
  Waiting f db t0 tl s -> tl <= now -> now < t0 + db ->
  exists s', Update now s = Some (true, [], s') /\ Waiting f db t0 now s'.
Proof.
  intros (Hf & Hl & Hs & Hd & Htl) Hle Hlt. unfold is_u16 in Hdb16.
  change (2 ^ 16) with 65536 in Hdb16.
  change (2 ^ 32) with 4294967296 in Hrange.
  unfold Update. rewrite Hf, Hl.
  destruct (Z.eqb_spec tl now) as [-> | Hne].
  { exists s. split; [reflexivity |]. unfold Waiting. auto. }
  assert (Hundef : (tl =? kTimeUndef) = false)
    by (apply Z.eqb_neq; unfold kTimeUndef; lia).
  rewrite Hundef. fields. rewrite Hl, Hd.
  rewrite (u32_small (now - tl)) by (change (2 ^ 32) with 4294967296; lia).
  rewrite Z.max_r by lia.
  rewrite (u16_small (t0 + db - tl - (now - tl)))
    by (change (2 ^ 16) with 65536; lia).
  assert (E1 : (0 <? t0 + db - tl) = true) by (apply Z.ltb_lt; lia).
  assert (E2 : (0 <? t0 + db - tl - (now - tl)) = true)
    by (apply Z.ltb_lt; lia).
  rewrite E1, E2. eexists. split; [reflexivity |].
  unfold Waiting. fields. repeat split; try assumption; lia.
Qed.

Lemma run_waiting (ts : list Z) (tl : Z) (s : TJLed) :
  Waiting f db t0 tl s ->
  nondecreasing (tl :: ts) ->
  Forall (fun now => now < t0 + db) ts ->
  exists s',
    run ts s = Some (map (fun _ => (true, [])) ts, s')
    /\ Waiting f db t0 (last ts tl) s'.
Proof.
  revert tl s. induction ts as [|now ts IH]; intros tl s Hw Hnd Hall.
  - exists s. split; [reflexivity | exact Hw].
  - apply nondecreasing_cons in Hnd. destruct Hnd as [Hle Hnd].
    inversion Hall as [|? ? Hnow Hall']; subst.
    destruct (Update_waiting_next tl now s Hw Hle Hnow) as (s1 & HU & Hw1).
    destruct (IH now s1 Hw1 Hnd Hall') as (s2 & HR & Hw2).
    exists s2. cbn [run map]. rewrite HU, HR. split; [reflexivity |].
    rewrite last_cons. exact Hw2.
Qed.

(** X19: the delay before an effect is a budget of wall-clock time.  For an
    effect first updated at [t0] with [delay_before = db > 0], every call
    of a non-decreasing call pattern with times before [t0 + db] returns
    true, calls no brightness function and writes nothing, however the calls
    are spaced; after a last call at [tl], [t0 + db - tl] milliseconds of the
    delay are left and [time_start_] is [t0 + db]. *)
Theorem delay_before_is_silent (ts : list Z) (s : TJLed) :
  brightness_func_ s = Some f ->
  last_update_time_ s = kTimeUndef ->
  delay_before_ s = db -> 0 < db ->
  nondecreasing (t0 :: ts) ->
  Forall (fun now => now < t0 + db) ts ->
  exists s',
    run (t0 :: ts) s = Some (map (fun _ => (true, [])) (t0 :: ts), s')
    /\ delay_before_ s' = t0 + db - last ts t0
    /\ time_start_ s' = t0 + db
    /\ brightness_func_ s' = Some f.
Proof.
  intros Hf Hl Hd Hpos Hnd Hall.
  destruct (Update_waiting_first s Hf Hl Hd Hpos) as (s1 & HU & Hw1).
  destruct (run_waiting ts t0 s1 Hw1 Hnd Hall) as (s2 & HR & Hw2).
  exists s2. cbn [run map]. rewrite HU, HR.
  destruct Hw2 as (Hf2 & _ & Hs2 & Hd2 & _). auto.
Qed.

End DelayBefore.

Lemma delay_before_is_silent_witness :
  exists s',
    run [10; 11; 50; 50; 109] (DelayBefore 100 (Forever (Breathe 2000 TJLed_new)))
    = Some (map (fun _ => (true, [])) [10; 11; 50; 50; 109], s')
    /\ delay_before_ s' = 10 + 100 - last [11; 50; 50; 109] 10
    /\ time_start_ s' = 10 + 100
    /\ brightness_func_ s' = Some BreatheFunc.
Proof.
  apply (delay_before_is_silent BreatheFunc 100 10).
  - lia.
  - unfold is_u16. lia.
  - reflexivity.
  - reflexivity.
  - reflexivity.
  - lia.
  - cbn [nondecreasing]. lia.
  - repeat constructor; lia.
Defined.

(** ** Types of the fields, for the builder *)

Lemma TJLed_new_well_typed : well_typed TJLed_new.
Proof.
  unfold well_typed, TJLed_new, is_u16, is_u32, kTimeUndef. fields.
  change (2 ^ 16) with 65536. change (2 ^ 8) with 256.
  change (2 ^ 32) with 4294967296. lia.
Qed.

(** X20: every selector and modifier, called with 16-bit arguments on a
    state whose fields are within their C++ types, returns such a state
    ([Blink] by wrapping the sum of its durations to 16 bits); so does
    [Stop]. *)
Theorem builders_well_typed (s : TJLed) (a b : Z) (on : bool)
    (f : BrightnessEvalFunction) :
  well_typed s -> is_u16 a -> is_u16 b ->
  well_typed (Set_ on s)
  /\ well_typed (FadeOn a s) /\ well_typed (FadeOff a s)
  /\ well_typed (Breathe a s) /\ well_typed (Blink a b s)
  /\ well_typed (UserFunc f a b s)
  /\ well_typed (Repeat a s) /\ well_typed (Forever s)
  /\ well_typed (DelayBefore a s) /\ well_typed (DelayAfter a s)
  /\ well_typed (Invert s) /\ well_typed (LowActive s)
  /\ well_typed (snd (Stop s)).
Proof.
  assert (HU : is_u32 kTimeUndef).
  { unfold is_u32, kTimeUndef. change (2 ^ 32) with 4294967296. lia. }
  assert (H1 : is_u16 1).
  { unfold is_u16. change (2 ^ 16) with 65536. lia. }
  intros (Hfl & Hn & Hl & Hd & Ha & Ht & Hp) Ha16 Hb16.
  assert (Hsum : is_u16 (u16 (a + b))).
  { unfold is_u16, u16. apply Z.mod_pos_bound. reflexivity. }
  assert (Hforever : is_u16 kRepeatForever).
  { unfold is_u16, kRepeatForever. change (2 ^ 16) with 65536. lia. }
  assert (Hsf : forall fl v, well_typed (SetFlags fl v s)).
  { intros fl v. unfold well_typed.
    split; [apply SetFlags_flags_range |].
    unfold SetFlags. destruct v; fields; auto 10. }
  repeat match goal with |- _ /\ _ => split end;
    try apply Hsf;
    try (destruct on);
    unfold well_typed, Set_, On, Off, FadeOn, FadeOff, Breathe, Blink,
      UserFunc, Init, Repeat, Forever, DelayBefore, DelayAfter, Stop;
    fields; auto 10.
Qed.

Lemma builders_well_typed_witness :
  well_typed (Set_ false TJLed_new)
  /\ well_typed (FadeOn 40000 TJLed_new)
  /\ well_typed (FadeOff 40000 TJLed_new)
  /\ well_typed (Breathe 40000 TJLed_new)
  /\ well_typed (Blink 40000 40000 TJLed_new)
  /\ well_typed (UserFunc OnFunc 40000 40000 TJLed_new)
  /\ well_typed (Repeat 40000 TJLed_new)
  /\ well_typed (Forever TJLed_new)
  /\ well_typed (DelayBefore 40000 TJLed_new)
  /\ well_typed (DelayAfter 40000 TJLed_new)
  /\ well_typed (Invert TJLed_new)
  /\ well_typed (LowActive TJLed_new)
  /\ well_typed (snd (Stop TJLed_new)).
Proof.
  apply (builders_well_typed TJLed_new 40000 40000 false OnFunc).
  - exact TJLed_new_well_typed.
  - unfold is_u16. lia.
  - unfold is_u16. lia.
Defined.
